(** * crypto.MessageVerifier: signed messages, verified against the Go source

    A shallow embedding of [crypto/message_verifier.go].  Go strings are byte
    sequences and are modelled by [string] (a list of 8-bit [ascii]); a
    [[]byte] is a [list byte]; Go's [int] and [uint] values are [Z], with the
    truncation of a conversion to [byte] written out.  The functions of Go's
    standard library that the verifier calls ([strings.Split],
    [encoding/base64], [encoding/hex], [crypto/hmac], [crypto/sha1]) are
    modelled in the first modules, the verifier itself in [Section Verifier]. *)

From Stdlib Require Import ZArith List Bool Ascii String Lia.
Import ListNotations.

Local Open Scope string_scope.
Local Open Scope list_scope.
Local Open Scope Z_scope.

(** ** Bytes and strings *)

Definition byte := ascii.

(** [int(b)] / [uint(b)] for a byte [b]. *)
Definition int_of_byte (b : byte) : Z := Z.of_N (N_of_ascii b).

(** [byte(z)]: conversion of an unsigned integer to a byte keeps the low 8 bits. *)
Definition byte_of_int (z : Z) : byte := ascii_of_N (Z.to_N (z mod 256)).

(** [[]byte(s)] and [string(b)]. *)
Definition bytes_of_string (s : string) : list byte := list_ascii_of_string s.
Definition string_of_bytes (b : list byte) : string := string_of_list_ascii b.

(** The outcome of a Go call: it returns, or it panics (a nil dereference, a
    call of a nil func or of a method of a nil interface). *)
Inductive result (A : Type) : Type :=
| Returns (a : A)
| Panics.
Arguments Returns {A} a.
Arguments Panics {A}.

(** ** Go errors *)

(** [errors.New(s)] and [fmt.Errorf("...%w", err)]: the latter carries the
    formatted message and the error it wraps. *)
Inductive error : Type :=
| errorString (s : string)
| wrapError (msg : string) (err : error).

Definition errors_New (s : string) : error := errorString s.

(** The [Error()] method. *)
Definition Error (e : error) : string :=
  match e with
  | errorString s => s
  | wrapError msg _ => msg
  end.

(** ** strings *)
Module strings.

(** [strings.Split(s, "--")]: the substrings between the successive
    leftmost, non-overlapping occurrences of the separator; [cur] is the
    part of the current substring already scanned.  A string without the
    separator (the empty one too) yields one element. *)
Fixpoint SplitFrom (cur s : string) : list string :=
  match s with
  | EmptyString => [cur]
  | String c rest =>
      match rest with
      | String c' rest' =>
          if Ascii.eqb c "-" && Ascii.eqb c' "-"
          then cur :: SplitFrom EmptyString rest'
          else SplitFrom (cur ++ String c EmptyString)%string rest
      | EmptyString => SplitFrom (cur ++ String c EmptyString)%string rest
      end
  end.

Definition Split_dashes (s : string) : list string := SplitFrom EmptyString s.

End strings.

(** ** encoding/hex *)
Module hex.

Definition hextable : string := "0123456789abcdef".

Definition digit (i : Z) : byte :=
  match String.get (Z.to_nat i) hextable with
  | Some c => c
  | None => zero
  end.

(** [hex.EncodeToString]: two digits per byte, high nibble first. *)
Fixpoint Encode (src : list byte) : list byte :=
  match src with
  | [] => []
  | v :: rest =>
      digit (Z.shiftr (int_of_byte v) 4)
      :: digit (Z.land (int_of_byte v) 0x0f)
      :: Encode rest
  end.

Definition EncodeToString (src : list byte) : string :=
  string_of_bytes (Encode src).

End hex.

(** ** encoding/base64, [StdEncoding] *)
Module base64.

Definition encodeStd : string :=
  "ABCDEFGHIJKLMNOPQRSTUVWXYZabcdefghijklmnopqrstuvwxyz0123456789+/".

Definition padChar : byte := "="%char.

(** [enc.encode[i]] *)
Definition encode (i : Z) : byte :=
  match String.get (Z.to_nat i) encodeStd with
  | Some c => c
  | None => zero
  end.

(** [enc.decodeMap[c]]: the 6-bit value of an alphabet character; [None]
    stands for the table's 0xff entries. *)
Definition decodeMap (c : byte) : option Z :=
  let n := int_of_byte c in
  if (65 <=? n) && (n <=? 90) then Some (n - 65)
  else if (97 <=? n) && (n <=? 122) then Some (n - 71)
  else if (48 <=? n) && (n <=? 57) then Some (n + 4)
  else if n =? 43 then Some 62
  else if n =? 47 then Some 63
  else None.

(** [Encode]: three bytes give four characters; a last group of one or two
    bytes is zero-extended and padded with [=]. *)
Fixpoint Encode (src : list byte) : list byte :=
  match src with
  | [] => []
  | b0 :: b1 :: b2 :: rest =>
      let val := Z.lor (Z.lor (Z.shiftl (int_of_byte b0) 16)
                              (Z.shiftl (int_of_byte b1) 8))
                       (int_of_byte b2) in
      encode (Z.land (Z.shiftr val 18) 0x3F)
      :: encode (Z.land (Z.shiftr val 12) 0x3F)
      :: encode (Z.land (Z.shiftr val 6) 0x3F)
      :: encode (Z.land val 0x3F)
      :: Encode rest
  | [b0; b1] =>
      let val := Z.lor (Z.shiftl (int_of_byte b0) 16)
                       (Z.shiftl (int_of_byte b1) 8) in
      [encode (Z.land (Z.shiftr val 18) 0x3F);
       encode (Z.land (Z.shiftr val 12) 0x3F);
       encode (Z.land (Z.shiftr val 6) 0x3F);
       padChar]
  | [b0] =>
      let val := Z.shiftl (int_of_byte b0) 16 in
      [encode (Z.land (Z.shiftr val 18) 0x3F);
       encode (Z.land (Z.shiftr val 12) 0x3F);
       padChar; padChar]
  end.

Definition EncodeToString (src : list byte) : string :=
  string_of_bytes (Encode src).

(** Decoding.  [CorruptInputError] is the only decoding error; its offset
    is not modelled (the verifier never looks at it). *)
Definition CorruptInputError : error := errors_New "illegal base64 data".

Definition isNewline (c : byte) : bool :=
  (int_of_byte c =? 10) || (int_of_byte c =? 13).

Fixpoint skipNewlines (src : list byte) : list byte :=
  match src with
  | c :: rest => if isNewline c then skipNewlines rest else src
  | [] => []
  end.

(** The end of [decodeQuantum]: [dbuf] holds [dlen] 6-bit values (the
    missing ones are zero); they are assembled into 24 bits, of which
    [dlen - 1] bytes are output.  In strict mode the bits dropped after a
    padded group must be zero; a failing check outputs nothing.  [err] is
    the trailing-garbage error found after the padding, if any. *)
Definition assemble (strict : bool) (dbuf : list Z) (err : option error)
  : list byte * option error :=
  let val := Z.lor (Z.lor (Z.lor (Z.shiftl (nth 0 dbuf 0) 18)
                                 (Z.shiftl (nth 1 dbuf 0) 12))
                          (Z.shiftl (nth 2 dbuf 0) 6))
                   (nth 3 dbuf 0) in
  let d0 := byte_of_int (Z.shiftr val 16) in
  let d1 := byte_of_int (Z.shiftr val 8) in
  let d2 := byte_of_int (Z.shiftr val 0) in
  match List.length dbuf with
  | 4%nat => ([d0; d1; d2], err)
  | 3%nat =>
      if strict && negb (int_of_byte d2 =? 0) then ([], Some CorruptInputError)
      else ([d0; d1], err)
  | 2%nat =>
      if strict && (negb (int_of_byte d1 =? 0) || negb (int_of_byte d2 =? 0))
      then ([], Some CorruptInputError)
      else ([d0], err)
  | _ => ([], err)
  end.

(** After the padding of a quantum: newlines are skipped, anything else is
    trailing garbage. *)
Definition afterPadding (strict : bool) (dbuf : list Z) (src : list byte)
  : list byte * list byte * option error :=
  let src := skipNewlines src in
  let err := match src with [] => None | _ => Some CorruptInputError end in
  let '(out, err) := assemble strict dbuf err in
  (src, out, err).

(** [decodeQuantum]: reads up to four alphabet characters, ignoring CR and
    LF, and returns the unread input, the decoded bytes and the error.
    [dbuf] holds the values read so far (the loop index [j] is its
    length). *)
Fixpoint decodeQuantum (strict : bool) (dbuf : list Z) (src : list byte)
  : list byte * list byte * option error :=
  match src with
  | [] =>
      match dbuf with
      | [] => ([], [], None)
      | _ => ([], [], Some CorruptInputError)
      end
  | c :: rest =>
      match decodeMap c with
      | Some out =>
          let dbuf := dbuf ++ [out] in
          if (List.length dbuf =? 4)%nat
          then let '(o, e) := assemble strict dbuf None in (rest, o, e)
          else decodeQuantum strict dbuf rest
      | None =>
          if isNewline c then decodeQuantum strict dbuf rest
          else if negb (Ascii.eqb c padChar) then (rest, [], Some CorruptInputError)
          else
            match List.length dbuf with
            | 0%nat | 1%nat => (rest, [], Some CorruptInputError)
            | 2%nat =>
                match skipNewlines rest with
                | [] => ([], [], Some CorruptInputError)
                | c2 :: rest2 =>
                    if negb (Ascii.eqb c2 padChar)
                    then (c2 :: rest2, [], Some CorruptInputError)
                    else afterPadding strict dbuf rest2
                end
            | _ => afterPadding strict dbuf rest
            end
      end
  end.

(** [Decode]: quanta are decoded until the input is used up or one fails;
    the bytes decoded before a failure are kept.  Every quantum of a
    non-empty input reads at least one character, so [fuel] = the length of
    the input suffices. *)
Fixpoint decodeLoop (strict : bool) (fuel : nat) (src : list byte)
  : list byte * option error :=
  match src, fuel with
  | [], _ => ([], None)
  | _, O => ([], None)
  | _, S fuel =>
      let '(rest, out, err) := decodeQuantum strict [] src in
      match err with
      | Some e => (out, Some e)
      | None =>
          let '(out', err') := decodeLoop strict fuel rest in
          (out ++ out', err')
      end
  end.

(** [StdEncoding.Strict().DecodeString(s)] *)
Definition DecodeString_strict (s : string) : list byte * option error :=
  let src := bytes_of_string s in
  decodeLoop true (List.length src) src.

End base64.

(** ** hash.Hash *)

(** A [func() hash.Hash]: the hash objects it makes.  Such an object
    accumulates the bytes written to it, and [Sum(nil)] returns the digest of
    what was written: [Sum] below maps the written bytes to that digest. *)
Record Hash : Type := {
  Size : nat;
  BlockSize : nat;
  Sum : list byte -> list byte
}.

(** ** crypto/sha1 *)
Module sha1.

(** [uint32] arithmetic wraps around. *)
Definition u32 (x : Z) : Z := x mod 2 ^ 32.

Definition RotateLeft32 (x k : Z) : Z :=
  u32 (Z.lor (Z.shiftl x k) (Z.shiftr x (32 - k))).

Definition not32 (x : Z) : Z := Z.lxor x 0xFFFFFFFF.

Definition init : Z * Z * Z * Z * Z :=
  (0x67452301, 0xEFCDAB89, 0x98BADCFE, 0x10325476, 0xC3D2E1F0).

Definition K0 := 0x5A827999.
Definition K1 := 0x6ED9EBA1.
Definition K2 := 0x8F1BBCDC.
Definition K3 := 0xCA62C1D6.

(** Big-endian words of a block. *)
Fixpoint words (p : list Z) : list Z :=
  match p with
  | b0 :: b1 :: b2 :: b3 :: rest =>
      Z.lor (Z.lor (Z.lor (Z.shiftl b0 24) (Z.shiftl b1 16)) (Z.shiftl b2 8)) b3
      :: words rest
  | _ => []
  end.

(** The message schedule: [n] more words, each the rotation of the xor of
    the words 3, 8, 14 and 16 places back. *)
Fixpoint schedule (n : nat) (w : list Z) : list Z :=
  match n with
  | O => w
  | S n =>
      let t := List.length w in
      let tmp := Z.lxor (Z.lxor (Z.lxor (nth (t - 3) w 0) (nth (t - 8) w 0))
                                (nth (t - 14) w 0))
                        (nth (t - 16) w 0) in
      schedule n (w ++ [RotateLeft32 tmp 1])
  end.

Definition round (i : nat) (wi : Z) (s : Z * Z * Z * Z * Z)
  : Z * Z * Z * Z * Z :=
  let '(a, b, c, d, e) := s in
  let '(f, k) :=
    if (i <? 20)%nat then (Z.lor (Z.land b c) (Z.land (not32 b) d), K0)
    else if (i <? 40)%nat then (Z.lxor (Z.lxor b c) d, K1)
    else if (i <? 60)%nat then (Z.lor (Z.land (Z.lor b c) d) (Z.land b c), K2)
    else (Z.lxor (Z.lxor b c) d, K3) in
  let t := u32 (RotateLeft32 a 5 + f + e + wi + k) in
  (t, a, RotateLeft32 b 30, c, d).

Fixpoint rounds (i : nat) (w : list Z) (s : Z * Z * Z * Z * Z)
  : Z * Z * Z * Z * Z :=
  match w with
  | [] => s
  | wi :: w => rounds (S i) w (round i wi s)
  end.

(** One 64-byte chunk. *)
Definition block (h : Z * Z * Z * Z * Z) (p : list Z) : Z * Z * Z * Z * Z :=
  let '(h0, h1, h2, h3, h4) := h in
  let '(a, b, c, d, e) := rounds 0 (schedule 64 (words p)) h in
  (u32 (h0 + a), u32 (h1 + b), u32 (h2 + c), u32 (h3 + d), u32 (h4 + e)).

Fixpoint blocks (n : nat) (h : Z * Z * Z * Z * Z) (p : list Z)
  : Z * Z * Z * Z * Z :=
  match n with
  | O => h
  | S n => blocks n (block h (firstn 64 p)) (skipn 64 p)
  end.

(** Big-endian bytes of an integer, [n] of them. *)
Fixpoint bigEndian (n : nat) (x : Z) : list Z :=
  match n with
  | O => []
  | S n => Z.shiftr x (8 * Z.of_nat n) mod 256 :: bigEndian n x
  end.

(** Padding: 0x80, zeros up to 56 mod 64, and the length in bits on 8 bytes. *)
Definition padding (len : nat) : list Z :=
  let r := (len mod 64)%nat in
  let n := if (r <? 56)%nat then (56 - r)%nat else (64 + 56 - r)%nat in
  0x80 :: repeat 0 (n - 1) ++ bigEndian 8 (8 * Z.of_nat len).

Definition checkSum (msg : list Z) : list Z :=
  let p := msg ++ padding (List.length msg) in
  let '(h0, h1, h2, h3, h4) := blocks (List.length p / 64) init p in
  bigEndian 4 h0 ++ bigEndian 4 h1 ++ bigEndian 4 h2 ++ bigEndian 4 h3
    ++ bigEndian 4 h4.

(** [sha1.New] *)
Definition New : Hash := {|
  Size := 20;
  BlockSize := 64;
  Sum := fun written => map byte_of_int (checkSum (map int_of_byte written))
|}.

End sha1.

(** ** crypto/hmac *)
Module hmac.

Definition xorWith (c : Z) (pad : list byte) : list byte :=
  map (fun b => byte_of_int (Z.lxor (int_of_byte b) c)) pad.

(** [copy(pad, key)] into a zeroed buffer of [n] bytes. *)
Definition copyKey (n : nat) (key : list byte) : list byte :=
  firstn n (key ++ repeat zero n).

(** [hmac.New(h, key)], [Write(data)] and [Sum(nil)]: a key longer than
    the block is hashed first; the inner hash is taken over the key xor
    0x36 followed by the data, the outer over the key xor 0x5c followed by
    the inner digest. *)
Definition mac (h : Hash) (key data : list byte) : list byte :=
  let blocksize := BlockSize h in
  let key := if (blocksize <? List.length key)%nat then Sum h key else key in
  let ipad := xorWith 0x36 (copyKey blocksize key) in
  let opad := xorWith 0x5c (copyKey blocksize key) in
  let inner := Sum h (ipad ++ data) in
  Sum h (opad ++ inner).

End hmac.

(** ** The verifier *)

(** The text made of one double quote (byte 34): [quote ++ s ++ quote] is
    the text [s] between double quotes, as [Verify] builds it. *)
Definition quote : string := String "034"%char EmptyString.

Section Verifier.

(** The values handed to [Generate] and stored into the target of [Verify]
    (Go's [interface{}]). *)
Variable V : Type.

(** [MsgSerializer]: [Serialize(v)] returns the data and an error;
    [Unserialize(data, target)] writes through the target pointer, so it maps
    the content of the target before the call to its content after it, and
    returns an error. *)
Record MsgSerializer : Type := {
  Serialize : V -> string * option error;
  Unserialize : string -> V -> V * option error
}.

(** The struct; [None] is Go's [nil] for the slice, the func and the
    interface. *)
Record MessageVerifier : Type := {
  Secret : option (list byte);
  Hasher : option Hash;
  Serializer : option MsgSerializer
}.

(** What the calls act on: the struct the receiver [crypt] points to ([None]
    for a nil receiver), the content of the variable [target] points to, and
    the data [Unserialize] was invoked on, oldest first. *)
Record world : Type := {
  crypt : option MessageVerifier;
  target : V;
  unserialized : list string
}.

(** A call returns or panics, and leaves a world behind. *)
Definition M (A : Type) : Type := world -> result A * world.

Definition ret {A : Type} (a : A) : M A := fun w => (Returns a, w).

Definition bind {A B : Type} (m : M A) (k : A -> M B) : M B :=
  fun w =>
    match m w with
    | (Returns a, w') => k a w'
    | (Panics, w') => (Panics, w')
    end.

Definition panic {A : Type} : M A := fun w => (Panics, w).

Notation "x <- m ;; k" := (bind m (fun x => k))
  (at level 61, m at next level, right associativity).
Notation "m ;;; k" := (bind m (fun _ => k))
  (at level 61, right associativity).

(** The receiver pointer. *)
Definition receiver : M (option MessageVerifier) :=
  fun w => (Returns (crypt w), w).

(** A field access [crypt.f]: a nil receiver panics. *)
Definition deref : M MessageVerifier :=
  c <- receiver ;;
  match c with
  | Some c => ret c
  | None => panic
  end.

(** [crypt.Hasher = h] *)
Definition setHasher (h : Hash) : M unit :=
  c <- deref ;;
  fun w =>
    (Returns tt,
     {| crypt := Some {| Secret := Secret c; Hasher := Some h;
                         Serializer := Serializer c |};
        target := target w;
        unserialized := unserialized w |}).

(** [crypt.Serializer.Serialize(value)]; a nil interface panics. *)
Definition callSerialize (value : V) : M (string * option error) :=
  c <- deref ;;
  match Serializer c with
  | Some ser => ret (Serialize ser value)
  | None => panic
  end.

(** [crypt.Serializer.Unserialize(data, target)] *)
Definition callUnserialize (data : string) : M (option error) :=
  c <- deref ;;
  match Serializer c with
  | Some ser =>
      fun w =>
        let '(t, err) := Unserialize ser data (target w) in
        (Returns err,
         {| crypt := crypt w;
            target := t;
            unserialized := unserialized w ++ [data] |})
  | None => panic
  end.

Definition checkInit : M (option error) :=
  c <- receiver ;;
  match c with
  | None => ret (Some (errors_New "MessageVerifier not set"))
  | Some c =>
      match Serializer c with
      | None => ret (Some (errors_New "Serializer not set"))
      | Some _ =>
          match Hasher c with
          | None => setHasher sha1.New
          | Some _ => ret tt
          end ;;;
          match Secret c with
          | None => ret (Some (errors_New "Secret not set"))
          | Some _ => ret None
          end
      end
  end.

Definition IsValid : M (bool * option error) :=
  err <- checkInit ;;
  match err with
  | Some e => ret (false, Some e)
  | None => ret (true, None)
  end.

Definition sentinel : string := "Y U SET NO SECRET???!".

(** [DigestFor]: [crypt.Secret] dereferences the receiver, and [hmac.New]
    calls [crypt.Hasher]. *)
Definition DigestFor (data : string) : M string :=
  c <- deref ;;
  match Secret c with
  | None => ret sentinel
  | Some secret =>
      match Hasher c with
      | None => panic
      | Some h =>
          ret (hex.EncodeToString (hmac.mac h secret (bytes_of_string data)))
      end
  end.

(** [s[i]]: an index out of range panics. *)
Definition index (s : list byte) (i : nat) : result byte :=
  match nth_error s i with
  | Some b => Returns b
  | None => Panics
  end.

(** The loop of [secureCompare], from the state [(i, res)]; it runs while
    [i < len(a)], for which [fuel] = [len(a) - i] iterations suffice. *)
Fixpoint secureCompare_loop (fuel : nat) (a b : list byte) (i : nat) (res : Z)
  : result (nat * Z) :=
  match fuel with
  | O => Returns (i, res)
  | S fuel =>
      if (i <? List.length a)%nat then
        match index b i, index a i with
        | Returns bi, Returns ai =>
            secureCompare_loop fuel a b (S i)
              (Z.lor res (Z.lxor (int_of_byte bi) (int_of_byte ai)))
        | _, _ => Panics
        end
      else Returns (i, res)
  end.

(** [secureCompare] does not use its receiver. *)
Definition secureCompare (strA strB : string) : result bool :=
  let a := bytes_of_string strA in
  let b := bytes_of_string strB in
  if negb (List.length a =? List.length b)%nat then Returns false
  else
    match secureCompare_loop (List.length a) a b 0 0 with
    | Returns (_, res) => Returns (res =? 0)
    | Panics => Panics
    end.

Definition lift {A : Type} (r : result A) : M A := fun w => (r, w).

Definition invalid (msg : string) : error :=
  errors_New ("Invalid signature - " ++ msg)%string.

Definition Verify (msg : string) : M (option error) :=
  err <- checkInit ;;
  match err with
  | Some e => ret (Some e)
  | None =>
      if String.eqb msg "" then ret (Some (invalid "empty message"))
      else
        match strings.Split_dashes msg with
        | [data; digest] =>
            expected <- DigestFor data ;;
            same <- lift (secureCompare digest expected) ;;
            if Bool.eqb same false
            then ret (Some (invalid "bad data (compare)"))
            else
              let '(decodedData, _) := base64.DecodeString_strict data in
              let decodedString :=
                (quote ++ string_of_bytes decodedData ++ quote)%string in
              err <- callUnserialize decodedString ;;
              match err with
              | Some _ =>
                  err <- callUnserialize (string_of_bytes decodedData) ;;
                  match err with
                  | Some e =>
                      ret (Some (wrapError
                        ("failed to unserialize both quoted and raw data: "
                           ++ Error e)%string e))
                  | None => ret None
                  end
              | None => ret None
              end
        | _ => ret (Some (invalid "bad data --"))
        end
  end.

Definition Generate (value : V) : M (string * option error) :=
  err <- checkInit ;;
  match err with
  | Some e => ret ("", Some e)
  | None =>
      r <- callSerialize value ;;
      match r with
      | (_, Some e) => ret ("", Some e)
      | (data, None) =>
          let str := base64.EncodeToString (bytes_of_string data) in
          digest <- DigestFor str ;;
          ret ((str ++ "--" ++ digest)%string, None)
      end
  end.

End Verifier.

Arguments Serialize {V} _ _.
Arguments Unserialize {V} _ _ _.
Arguments Secret {V} _.
Arguments Hasher {V} _.
Arguments Serializer {V} _.
Arguments crypt {V} _.
Arguments target {V} _.
Arguments unserialized {V} _.
Arguments checkInit {V} _.
Arguments IsValid {V} _.
Arguments DigestFor {V} _ _.
Arguments Verify {V} _ _.
Arguments Generate {V} _ _.

(** The classes of errors. *)
Definition InvalidSignature (e : error) : bool :=
  String.prefix "Invalid signature - " (Error e).

(** ** Two serializers of strings *)

(** The text itself is the serialized form. *)
Definition RawSerializer : MsgSerializer string := {|
  Serialize := fun v => (v, None);
  Unserialize := fun data _ => (data, None)
|}.

Definition noQuote (s : string) : bool :=
  forallb (fun c => negb (Ascii.eqb c "034"%char)) (list_ascii_of_string s).

(** A text codec in the manner of JSON strings, without escapes: the
    serialized form of a text is the text between double quotes, and only a
    quoted text without inner quotes is read back; a failure leaves the target
    as it was. *)
Definition QuotedSerializer : MsgSerializer string := {|
  Serialize := fun v => ((quote ++ v ++ quote)%string, None);
  Unserialize := fun data t =>
    match data with
    | String q rest =>
        let inner := String.substring 0 (String.length rest - 1) rest in
        if Ascii.eqb q "034"%char
           && String.eqb (String.substring (String.length rest - 1) 1 rest) quote
           && noQuote inner
        then (inner, None)
        else (t, Some (errors_New "invalid character"))
    | EmptyString => (t, Some (errors_New "unexpected end of input"))
    end
|}.

(** ** Vocabulary of the specification *)

(** The characters of a lowercase hexadecimal text, and those of a padded
    text in the standard base64 alphabet. *)
Definition isLowerHex (c : byte) : bool :=
  let n := int_of_byte c in
  ((48 <=? n) && (n <=? 57)) || ((97 <=? n) && (n <=? 102)).

Definition isStdBase64 (c : byte) : bool :=
  let n := int_of_byte c in
  ((65 <=? n) && (n <=? 90)) || ((97 <=? n) && (n <=? 122))
  || ((48 <=? n) && (n <=? 57)) || (n =? 43) || (n =? 47) || (n =? 61).

Definition notDash (c : byte) : bool := negb (Ascii.eqb c "-").

Definition allChars (p : byte -> bool) (s : string) : bool :=
  forallb p (bytes_of_string s).

(** The constant-time comparison in the specification's words: the
    OR-reduction of the XOR differences of the byte pairs. *)
Definition xorDiffs (a b : list byte) : list Z :=
  map (fun p => Z.lxor (int_of_byte (snd p)) (int_of_byte (fst p)))
      (combine a b).

Definition orReduce (l : list Z) : Z := fold_left Z.lor l 0.

(** The struct after a successful configuration validation. *)
Definition defaulted {V : Type} (c : MessageVerifier V) : MessageVerifier V :=
  match Hasher c with
  | Some _ => c
  | None =>
      {| Secret := Secret c; Hasher := Some sha1.New;
         Serializer := Serializer c |}
  end.

(** A verifier with its Serializer and its Secret set. *)
Definition configured {V : Type} (c : MessageVerifier V) : bool :=
  match Serializer c, Secret c with
  | Some _, Some _ => true
  | _, _ => false
  end.

(** The hash in use once the configuration was validated. *)
Definition hasherOf {V : Type} (c : MessageVerifier V) : Hash :=
  match Hasher c with
  | Some h => h
  | None => sha1.New
  end.

(** The digest of a validated verifier with secret [k]. *)
Definition digestOf (h : Hash) (k : list byte) (data : string) : string :=
  hex.EncodeToString (hmac.mac h k (bytes_of_string data)).

(** The error of the configuration validation, and the struct it leaves
    behind: the Hasher is defaulted only once a Serializer was found. *)
Definition configError {V : Type} (crypt : option (MessageVerifier V))
  : option error :=
  match crypt with
  | None => Some (errors_New "MessageVerifier not set")
  | Some c =>
      match Serializer c, Secret c with
      | None, _ => Some (errors_New "Serializer not set")
      | Some _, None => Some (errors_New "Secret not set")
      | Some _, Some _ => None
      end
  end.

Definition validated {V : Type} (c : MessageVerifier V) : MessageVerifier V :=
  match Serializer c with
  | Some _ => defaulted c
  | None => c
  end.

(** ** Sample verifiers *)

Definition sampleSecret : list byte :=
  bytes_of_string "s3cr3t-32-bytes-minimum-xxxxxxxx".

Definition sampleVerifier (ser : MsgSerializer string) : MessageVerifier string :=
  {| Secret := Some sampleSecret; Hasher := None; Serializer := Some ser |}.

Definition sampleWorld (ser : MsgSerializer string) : world string :=
  {| crypt := Some (sampleVerifier ser); target := "";
     unserialized := [] |}.

(** A verifier whose Secret is present and empty. *)
Definition emptySecretVerifier (ser : MsgSerializer string)
  : MessageVerifier string :=
  {| Secret := Some []; Hasher := None; Serializer := Some ser |}.

(** The errors of the configuration validation. *)
Definition isConfigError (e : error) : bool :=
  String.eqb (Error e) "MessageVerifier not set"
  || String.eqb (Error e) "Serializer not set"
  || String.eqb (Error e) "Secret not set".

(** What a call may do to the struct: the Secret and the Serializer stay, the
    Hasher stays or goes from nil to [sha1.New], and a struct with a Hasher
    stays as it is. *)
Definition fieldsKept {V : Type} (before after : option (MessageVerifier V))
  : Prop :=
  match before, after with
  | None, None => True
  | Some c, Some c' =>
      Secret c' = Secret c
      /\ Serializer c' = Serializer c
      /\ (Hasher c' = Hasher c
          \/ (Hasher c = None /\ Hasher c' = Some sha1.New))
      /\ (Hasher c <> None -> c' = c)
  | _, _ => False
  end.

(** The public operations, and the world after a sequence of calls (a call
    that panics leaves the world as it found it). *)
Inductive operation (V : Type) : Type :=
| CallIsValid
| CallGenerate (value : V)
| CallVerify (msg : string)
| CallDigestFor (data : string).
Arguments CallIsValid {V}.
Arguments CallGenerate {V} value.
Arguments CallVerify {V} msg.
Arguments CallDigestFor {V} data.

Definition after {V : Type} (o : operation V) (w : world V) : world V :=
  match o with
  | CallIsValid => snd (IsValid w)
  | CallGenerate value => snd (Generate value w)
  | CallVerify msg => snd (Verify msg w)
  | CallDigestFor data => snd (DigestFor data w)
  end.

Definition afterAll {V : Type} (os : list (operation V)) (w : world V)
  : world V :=
  fold_left (fun w o => after o w) os w.

(** [strings.Join(parts, "--")] *)
Fixpoint joinDashes (parts : list string) : string :=
  match parts with
  | [] => ""
  | x :: rest =>
      match rest with
      | [] => x
      | _ => (x ++ "--" ++ joinDashes rest)%string
      end
  end.

(** The error of [Verify] when both attempts to unserialize failed. *)
Definition isUnserializeFailure (e : error) : bool :=
  String.prefix "failed to unserialize both quoted and raw data: " (Error e).

(** [errors.Unwrap] *)
Definition Unwrap (e : error) : option error :=
  match e with
  | errorString _ => None
  | wrapError _ err => Some err
  end.

(** A struct with a Serializer and neither Secret nor Hasher. *)
Definition noSecretVerifier (ser : MsgSerializer string)
  : MessageVerifier string :=
  {| Secret := None; Hasher := None; Serializer := Some ser |}.

(** * Properties *)

Example split_three : strings.Split_dashes "a--b--c" = ["a"; "b"; "c"].
Proof. reflexivity. Qed.

Example split_none : strings.Split_dashes "nodoubledash" = ["nodoubledash"].
Proof. reflexivity. Qed.

Example split_empty : strings.Split_dashes "" = [""].
Proof. reflexivity. Qed.

Example split_odd : strings.Split_dashes "a---b" = ["a"; "-b"].
Proof. reflexivity. Qed.

Example encode_foobar : base64.EncodeToString (bytes_of_string "foobar") = "Zm9vYmFy".
Proof. reflexivity. Qed.

Example encode_fooba : base64.EncodeToString (bytes_of_string "fooba") = "Zm9vYmE=".
Proof. reflexivity. Qed.

Example encode_f : base64.EncodeToString (bytes_of_string "f") = "Zg==".
Proof. reflexivity. Qed.

Example decode_fooba :
  base64.DecodeString_strict "Zm9vYmE=" = (bytes_of_string "fooba", None).
Proof. reflexivity. Qed.

Example decode_nonzero_padding_bits :
  base64.DecodeString_strict "Zm9vYmF=" = (bytes_of_string "foo", Some base64.CorruptInputError).
Proof. reflexivity. Qed.

Example decode_garbage :
  base64.DecodeString_strict "!!!" = ([], Some base64.CorruptInputError).
Proof. reflexivity. Qed.

Example hex_bytes :
  hex.EncodeToString (map byte_of_int [0; 171; 255]) = "00abff".
Proof. reflexivity. Qed.

Example sha1_abc :
  hex.EncodeToString (Sum sha1.New (bytes_of_string "abc"))
  = "a9993e364706816aba3e25717850c26c9cd0d89d".
Proof. vm_compute. reflexivity. Qed.

Example sha1_empty :
  hex.EncodeToString (Sum sha1.New [])
  = "da39a3ee5e6b4b0d3255bfef95601890afd80709".
Proof. vm_compute. reflexivity. Qed.

Example sha1_two_blocks :
  hex.EncodeToString (Sum sha1.New (bytes_of_string
    "abcdbcdecdefdefgefghfghighijhijkijkljklmklmnlmnomnopnopq"))
  = "84983e441c3bd26ebaae4aa1f95129e5e54670f1".
Proof. vm_compute. reflexivity. Qed.

Example hmac_sha1_jefe :
  hex.EncodeToString (hmac.mac sha1.New (bytes_of_string "Jefe")
    (bytes_of_string "what do ya want for nothing?"))
  = "effcdf6ae5eb2fa2d27416d5f184df9c259a7c79".
Proof. vm_compute. reflexivity. Qed.

Example hmac_sha1_long_key :
  hex.EncodeToString (hmac.mac sha1.New (repeat (byte_of_int 0xaa) 80)
    (bytes_of_string "Test Using Larger Than Block-Size Key - Hash Key First"))
  = "aa4ae5e15272d00e95705637ce8a3b55ed402112".
Proof. vm_compute. reflexivity. Qed.

(** ** Bytes and bit arithmetic *)

Lemma int_of_byte_range (b : byte) : 0 <= int_of_byte b < 256.
Proof.
  unfold int_of_byte. pose proof (N_ascii_bounded b). lia.
Qed.

Lemma byte_of_int_of_byte (b : byte) : byte_of_int (int_of_byte b) = b.
Proof.
  unfold byte_of_int. rewrite Z.mod_small by apply int_of_byte_range.
  unfold int_of_byte. rewrite N2Z.id. apply ascii_N_embedding.
Qed.

Lemma int_of_byte_inj (a b : byte) : int_of_byte a = int_of_byte b -> a = b.
Proof.
  intros H. rewrite <- (byte_of_int_of_byte a), <- (byte_of_int_of_byte b).
  now rewrite H.
Qed.

Lemma int_of_byte_of_int (z : Z) : 0 <= z < 256 -> int_of_byte (byte_of_int z) = z.
Proof.
  intros H. unfold int_of_byte, byte_of_int.
  rewrite Z.mod_small by assumption.
  rewrite N_ascii_embedding by lia. lia.
Qed.

(** An or of two numbers with disjoint bits is their sum. *)
Lemma lor_add_disjoint (a lo n : Z) :
  0 <= n -> a mod 2 ^ n = 0 -> 0 <= lo < 2 ^ n -> Z.lor a lo = a + lo.
Proof.
  intros Hn Ha Hlo.
  assert (Hland : Z.land a lo = 0).
  { apply Z.bits_inj'. intros m Hm. rewrite Z.land_spec, Z.bits_0.
    destruct (Z.lt_ge_cases m n) as [Hlt | Hge].
    - assert (Hd : a = a / 2 ^ n * 2 ^ n).
      { pose proof (Z.div_mod a (2 ^ n)). lia. }
      rewrite Hd, Z.mul_pow2_bits_low by lia. reflexivity.
    - rewrite <- (Z.mod_small lo (2 ^ n)) by lia.
      rewrite Z.mod_pow2_bits_high by lia. apply andb_false_r. }
  pose proof (Z.add_lor_land a lo). lia.
Qed.

Lemma land_63 (a : Z) : Z.land a 0x3F = a mod 64.
Proof. change 0x3F with (Z.ones 6). now rewrite Z.land_ones by lia. Qed.

Lemma land_15 (a : Z) : Z.land a 0x0f = a mod 16.
Proof. change 0x0f with (Z.ones 4). now rewrite Z.land_ones by lia. Qed.

(** ** base64: decoding what was encoded *)

Lemma decodeMap_encode (s : Z) :
  0 <= s < 64 -> base64.decodeMap (base64.encode s) = Some s.
Proof.
  intros Hs.
  assert (Hall : forallb (fun n =>
            match base64.decodeMap (base64.encode (Z.of_nat n)) with
            | Some v => v =? Z.of_nat n
            | None => false
            end) (seq 0 64) = true) by (vm_compute; reflexivity).
  rewrite forallb_forall in Hall.
  specialize (Hall (Z.to_nat s)).
  rewrite Z2Nat.id in Hall by lia.
  destruct (base64.decodeMap (base64.encode s)) as [v |].
  - f_equal. apply Z.eqb_eq. apply Hall. apply in_seq. lia.
  - discriminate Hall. apply in_seq. lia.
Qed.

(** The 24 bits of three bytes, and their four 6-bit groups. *)
Lemma val3_sum (x0 x1 x2 : Z) :
  0 <= x0 < 256 -> 0 <= x1 < 256 -> 0 <= x2 < 256 ->
  Z.lor (Z.lor (Z.shiftl x0 16) (Z.shiftl x1 8)) x2
  = x0 * 65536 + x1 * 256 + x2.
Proof.
  intros H0 H1 H2. rewrite !Z.shiftl_mul_pow2 by lia.
  change (2 ^ 16) with 65536. change (2 ^ 8) with 256.
  rewrite (lor_add_disjoint (x0 * 65536) (x1 * 256) 16);
    [ | lia | change (2 ^ 16) with 65536; apply Z.mod_mul; lia
      | change (2 ^ 16) with 65536; lia ].
  rewrite (lor_add_disjoint (x0 * 65536 + x1 * 256) x2 8);
    [ reflexivity | lia | | change (2 ^ 8) with 256; lia ].
  change (2 ^ 8) with 256.
  replace (x0 * 65536 + x1 * 256) with ((x0 * 256 + x1) * 256) by lia.
  apply Z.mod_mul; lia.
Qed.

Lemma sextets_sum (s0 s1 s2 s3 : Z) :
  0 <= s0 < 64 -> 0 <= s1 < 64 -> 0 <= s2 < 64 -> 0 <= s3 < 64 ->
  Z.lor (Z.lor (Z.lor (Z.shiftl s0 18) (Z.shiftl s1 12)) (Z.shiftl s2 6)) s3
  = s0 * 262144 + s1 * 4096 + s2 * 64 + s3.
Proof.
  intros H0 H1 H2 H3. rewrite !Z.shiftl_mul_pow2 by lia.
  change (2 ^ 18) with 262144. change (2 ^ 12) with 4096.
  change (2 ^ 6) with 64.
  rewrite (lor_add_disjoint (s0 * 262144) (s1 * 4096) 18);
    [ | lia | change (2 ^ 18) with 262144; apply Z.mod_mul; lia
      | change (2 ^ 18) with 262144; lia ].
  rewrite (lor_add_disjoint (s0 * 262144 + s1 * 4096) (s2 * 64) 12);
    [ | lia | change (2 ^ 12) with 4096 | change (2 ^ 12) with 4096; lia ].
  2: { replace (s0 * 262144 + s1 * 4096) with ((s0 * 64 + s1) * 4096) by lia.
       apply Z.mod_mul; lia. }
  rewrite (lor_add_disjoint (s0 * 262144 + s1 * 4096 + s2 * 64) s3 6);
    [ reflexivity | lia | change (2 ^ 6) with 64 | change (2 ^ 6) with 64; lia ].
  replace (s0 * 262144 + s1 * 4096 + s2 * 64)
    with ((s0 * 4096 + s1 * 64 + s2) * 64) by lia.
  apply Z.mod_mul; lia.
Qed.

Lemma byte_of_int_eq (z : Z) (b : byte) :
  z mod 256 = int_of_byte b -> byte_of_int z = b.
Proof.
  intros H. rewrite <- (byte_of_int_of_byte b). unfold byte_of_int.
  rewrite H. now rewrite Z.mod_small by apply int_of_byte_range.
Qed.

Lemma decodeMap_padChar : base64.decodeMap base64.padChar = None.
Proof. reflexivity. Qed.

(** A full group of four characters. *)
Lemma decodeQuantum_group (strict : bool) (s0 s1 s2 s3 : Z) (rest : list byte) :
  0 <= s0 < 64 -> 0 <= s1 < 64 -> 0 <= s2 < 64 -> 0 <= s3 < 64 ->
  base64.decodeQuantum strict []
    (base64.encode s0 :: base64.encode s1 :: base64.encode s2
       :: base64.encode s3 :: rest)
  = (rest, fst (base64.assemble strict [s0; s1; s2; s3] None),
     snd (base64.assemble strict [s0; s1; s2; s3] None)).
Proof.
  intros H0 H1 H2 H3. cbn [base64.decodeQuantum].
  rewrite decodeMap_encode by assumption.
  cbn [base64.decodeQuantum app List.length Nat.eqb].
  rewrite decodeMap_encode by assumption.
  cbn [base64.decodeQuantum app List.length Nat.eqb].
  rewrite decodeMap_encode by assumption.
  cbn [base64.decodeQuantum app List.length Nat.eqb].
  rewrite decodeMap_encode by assumption.
  cbn [base64.decodeQuantum app List.length Nat.eqb].
  destruct (base64.assemble strict [s0; s1; s2; s3] None). reflexivity.
Qed.

(** A last group of three characters and one [=]. *)
Lemma decodeQuantum_pad1 (strict : bool) (s0 s1 s2 : Z) :
  0 <= s0 < 64 -> 0 <= s1 < 64 -> 0 <= s2 < 64 ->
  base64.decodeQuantum strict []
    [base64.encode s0; base64.encode s1; base64.encode s2; base64.padChar]
  = ([], fst (base64.assemble strict [s0; s1; s2] None),
     snd (base64.assemble strict [s0; s1; s2] None)).
Proof.
  intros H0 H1 H2. cbn [base64.decodeQuantum].
  rewrite decodeMap_encode by assumption.
  cbn [base64.decodeQuantum app List.length Nat.eqb].
  rewrite decodeMap_encode by assumption.
  cbn [base64.decodeQuantum app List.length Nat.eqb].
  rewrite decodeMap_encode by assumption.
  cbn [base64.decodeQuantum app List.length Nat.eqb].
  rewrite decodeMap_padChar.
  change (base64.isNewline base64.padChar) with false.
  change (Ascii.eqb base64.padChar base64.padChar) with true.
  cbn [negb]. unfold base64.afterPadding. cbn [base64.skipNewlines].
  destruct (base64.assemble strict [s0; s1; s2] None). reflexivity.
Qed.

(** A last group of two characters and two [=]. *)
Lemma decodeQuantum_pad2 (strict : bool) (s0 s1 : Z) :
  0 <= s0 < 64 -> 0 <= s1 < 64 ->
  base64.decodeQuantum strict []
    [base64.encode s0; base64.encode s1; base64.padChar; base64.padChar]
  = ([], fst (base64.assemble strict [s0; s1] None),
     snd (base64.assemble strict [s0; s1] None)).
Proof.
  intros H0 H1. cbn [base64.decodeQuantum].
  rewrite decodeMap_encode by assumption.
  cbn [base64.decodeQuantum app List.length Nat.eqb].
  rewrite decodeMap_encode by assumption.
  cbn [base64.decodeQuantum app List.length Nat.eqb].
  rewrite decodeMap_padChar.
  change (base64.isNewline base64.padChar) with false.
  change (Ascii.eqb base64.padChar base64.padChar) with true.
  cbn [negb base64.skipNewlines]. unfold base64.afterPadding.
  change (base64.isNewline base64.padChar) with false. cbn iota.
  change (Ascii.eqb base64.padChar base64.padChar) with true.
  cbn [negb base64.skipNewlines].
  destruct (base64.assemble strict [s0; s1] None). reflexivity.
Qed.

Ltac byte_bounds :=
  repeat match goal with
         | b : byte |- _ =>
             lazymatch goal with
             | _ : 0 <= int_of_byte b < 256 |- _ => fail
             | _ => pose proof (int_of_byte_range b)
             end
         end.

Lemma assemble_3 (b0 b1 b2 : byte) :
  let val := Z.lor (Z.lor (Z.shiftl (int_of_byte b0) 16)
                          (Z.shiftl (int_of_byte b1) 8))
                   (int_of_byte b2) in
  base64.assemble true
    [Z.land (Z.shiftr val 18) 0x3F; Z.land (Z.shiftr val 12) 0x3F;
     Z.land (Z.shiftr val 6) 0x3F; Z.land val 0x3F] None
  = ([b0; b1; b2], None).
Proof.
  intros val. byte_bounds.
  assert (Hval : val = int_of_byte b0 * 65536 + int_of_byte b1 * 256
                       + int_of_byte b2)
    by (apply val3_sum; assumption).
  unfold base64.assemble. cbn [nth List.length].
  rewrite !land_63, !Z.shiftr_div_pow2 by lia.
  change (2 ^ 18) with 262144. change (2 ^ 12) with 4096.
  change (2 ^ 6) with 64.
  rewrite sextets_sum by (apply Z.mod_pos_bound; lia).
  change (2 ^ 16) with 65536. change (2 ^ 8) with 256. change (2 ^ 0) with 1.
  f_equal. f_equal; [ | f_equal; [ | f_equal ] ];
    apply byte_of_int_eq; rewrite Hval; clear Hval val;
    Z.div_mod_to_equations; lia.
Qed.

Lemma assemble_2 (b0 b1 : byte) :
  let val := Z.lor (Z.shiftl (int_of_byte b0) 16)
                   (Z.shiftl (int_of_byte b1) 8) in
  base64.assemble true
    [Z.land (Z.shiftr val 18) 0x3F; Z.land (Z.shiftr val 12) 0x3F;
     Z.land (Z.shiftr val 6) 0x3F] None
  = ([b0; b1], None).
Proof.
  intros val. byte_bounds.
  assert (Hval : val = int_of_byte b0 * 65536 + int_of_byte b1 * 256).
  { unfold val. rewrite <- (Z.lor_0_r (Z.lor _ _)).
    rewrite val3_sum by lia. lia. }
  unfold base64.assemble. cbn [nth List.length].
  rewrite !land_63, !Z.shiftr_div_pow2 by lia.
  change (2 ^ 18) with 262144. change (2 ^ 12) with 4096.
  change (2 ^ 6) with 64.
  rewrite sextets_sum by (try apply Z.mod_pos_bound; lia).
  change (2 ^ 16) with 65536. change (2 ^ 8) with 256. change (2 ^ 0) with 1.
  match goal with
  | |- context [int_of_byte (byte_of_int ?z)] =>
      replace (byte_of_int z) with zero
  end.
  - cbn [int_of_byte N_of_ascii]. change (int_of_byte zero =? 0) with true.
    cbn [negb andb]. f_equal. f_equal; [ | f_equal ];
      apply byte_of_int_eq; rewrite Hval; clear Hval val;
      Z.div_mod_to_equations; lia.
  - symmetry. apply byte_of_int_eq. change (int_of_byte zero) with 0.
    rewrite Hval; clear Hval val. Z.div_mod_to_equations; lia.
Qed.

Lemma assemble_1 (b0 : byte) :
  let val := Z.shiftl (int_of_byte b0) 16 in
  base64.assemble true
    [Z.land (Z.shiftr val 18) 0x3F; Z.land (Z.shiftr val 12) 0x3F] None
  = ([b0], None).
Proof.
  intros val. byte_bounds.
  assert (Hval : val = int_of_byte b0 * 65536).
  { unfold val. now rewrite Z.shiftl_mul_pow2 by lia. }
  unfold base64.assemble. cbn [nth List.length].
  rewrite !land_63, !Z.shiftr_div_pow2 by lia.
  change (2 ^ 18) with 262144. change (2 ^ 12) with 4096.
  change (Z.shiftl 0 6) with (Z.shiftl 0 6 + 0).
  replace (Z.shiftl 0 6 + 0) with (Z.shiftl 0 6) by lia.
  rewrite sextets_sum by (try apply Z.mod_pos_bound; lia).
  change (2 ^ 16) with 65536. change (2 ^ 8) with 256. change (2 ^ 0) with 1.
  assert (H1 : byte_of_int
                 ((val / 262144 mod 64 * 262144 + val / 4096 mod 64 * 4096
                   + 0 * 64 + 0) / 256) = zero).
  { apply byte_of_int_eq. change (int_of_byte zero) with 0.
    rewrite Hval. Z.div_mod_to_equations; lia. }
  assert (H2 : byte_of_int
                 ((val / 262144 mod 64 * 262144 + val / 4096 mod 64 * 4096
                   + 0 * 64 + 0) / 1) = zero).
  { apply byte_of_int_eq. change (int_of_byte zero) with 0.
    rewrite Hval. Z.div_mod_to_equations; lia. }
  rewrite H1, H2. clear H1 H2. change (int_of_byte zero =? 0) with true.
  cbn [negb andb orb]. f_equal. f_equal.
  apply byte_of_int_eq; rewrite Hval; clear Hval val;
    Z.div_mod_to_equations; lia.
Qed.

Lemma sextet_range (a : Z) : 0 <= Z.land a 0x3F < 64.
Proof. rewrite land_63. apply Z.mod_pos_bound. lia. Qed.

(** Induction over a list three elements at a time, as [Encode] recurses. *)
Lemma list_ind3 (A : Type) (P : list A -> Prop) :
  P [] -> (forall a, P [a]) -> (forall a b, P [a; b]) ->
  (forall a b c l, P l -> P (a :: b :: c :: l)) ->
  forall l, P l.
Proof.
  intros H0 H1 H2 H3 l.
  assert (H : forall n l, (List.length l <= n)%nat -> P l).
  { induction n as [| n IH]; intros [| a [| b [| c k]]] Hl; cbn in Hl;
      try lia; auto.
    apply H3. apply IH. lia. }
  apply (H (List.length l)). lia.
Qed.

Lemma decodeLoop_Encode (bs : list byte) :
  forall fuel, (List.length (base64.Encode bs) <= fuel)%nat ->
  base64.decodeLoop true fuel (base64.Encode bs) = (bs, None).
Proof.
  induction bs as [| b0 | b0 b1 | b0 b1 b2 rest IH] using list_ind3;
    intros fuel Hfuel.
  - destruct fuel; reflexivity.
  - cbn [base64.Encode] in *. destruct fuel as [| fuel]; [cbn in Hfuel; lia |].
    cbn [base64.decodeLoop].
    rewrite decodeQuantum_pad2 by apply sextet_range.
    rewrite assemble_1. cbn [fst snd]. destruct fuel; reflexivity.
  - cbn [base64.Encode] in *. destruct fuel as [| fuel]; [cbn in Hfuel; lia |].
    cbn [base64.decodeLoop].
    rewrite decodeQuantum_pad1 by apply sextet_range.
    rewrite assemble_2. cbn [fst snd]. destruct fuel; reflexivity.
  - cbn [base64.Encode] in *. destruct fuel as [| fuel]; [cbn in Hfuel; lia |].
    cbn [base64.decodeLoop].
    rewrite decodeQuantum_group by apply sextet_range.
    rewrite assemble_3. cbn [fst snd].
    rewrite IH by (cbn [List.length] in Hfuel; lia). reflexivity.
Qed.

Lemma bytes_of_string_of_bytes (b : list byte) :
  bytes_of_string (string_of_bytes b) = b.
Proof. apply list_ascii_of_string_of_list_ascii. Qed.

Lemma string_of_bytes_of_string (s : string) :
  string_of_bytes (bytes_of_string s) = s.
Proof. apply string_of_list_ascii_of_string. Qed.

(** Strict decoding of an encoded text gives the bytes back, without error. *)
Lemma DecodeString_EncodeToString (bs : list byte) :
  base64.DecodeString_strict (base64.EncodeToString bs) = (bs, None).
Proof.
  unfold base64.DecodeString_strict, base64.EncodeToString.
  rewrite bytes_of_string_of_bytes. apply decodeLoop_Encode. lia.
Qed.

(** ** The fuel of the decoding loop *)

Lemma skipNewlines_length (src : list byte) :
  (List.length (base64.skipNewlines src) <= List.length src)%nat.
Proof.
  induction src as [| c rest IH]; [reflexivity |].
  cbn [base64.skipNewlines]. destruct (base64.isNewline c); cbn [List.length]; lia.
Qed.

Lemma afterPadding_rest (strict : bool) (dbuf : list Z) (src : list byte) :
  (List.length (fst (fst (base64.afterPadding strict dbuf src)))
   <= List.length src)%nat.
Proof.
  unfold base64.afterPadding.
  destruct (base64.assemble strict dbuf _). cbn [fst].
  apply skipNewlines_length.
Qed.

(** A quantum of a non-empty input reads at least one character. *)
Lemma decodeQuantum_rest (strict : bool) (src : list byte) :
  forall dbuf c,
  (List.length (fst (fst (base64.decodeQuantum strict dbuf (c :: src))))
   <= List.length src)%nat.
Proof.
  induction src as [| d src IH]; intros dbuf c; cbn [base64.decodeQuantum].
  - destruct (base64.decodeMap c) as [out |].
    + destruct (List.length (dbuf ++ [out]) =? 4)%nat.
      * destruct (base64.assemble strict _ None). reflexivity.
      * cbn [base64.decodeQuantum]. destruct (dbuf ++ [out]); reflexivity.
    + destruct (base64.isNewline c).
      * cbn [base64.decodeQuantum]. destruct dbuf; reflexivity.
      * destruct (negb (Ascii.eqb c base64.padChar)); [reflexivity |].
        destruct (List.length dbuf) as [| [| [| n]]]; try reflexivity;
          apply afterPadding_rest.
  - destruct (base64.decodeMap c) as [out |].
    + destruct (List.length (dbuf ++ [out]) =? 4)%nat.
      * destruct (base64.assemble strict _ None). apply le_n.
      * apply le_S. apply (IH (dbuf ++ [out]) d).
    + destruct (base64.isNewline c).
      * apply le_S. apply (IH dbuf d).
      * destruct (negb (Ascii.eqb c base64.padChar)); [apply le_n |].
        destruct (List.length dbuf) as [| [| [| n]]]; try apply le_n.
        -- pose proof (skipNewlines_length (d :: src)) as Hs.
           destruct (base64.skipNewlines (d :: src)) as [| c2 rest2];
             [apply Nat.le_0_l |].
           destruct (negb (Ascii.eqb c2 base64.padChar)); [exact Hs |].
           pose proof (afterPadding_rest strict dbuf rest2) as Hp.
           eapply Nat.le_trans; [exact Hp |].
           eapply Nat.le_trans; [| exact Hs]. apply le_S, le_n.
        -- apply afterPadding_rest.
Qed.

(** The loop does not run out of fuel: any fuel from the length of the
    input on gives the same result. *)
Lemma decodeLoop_fuel (strict : bool) (f1 : nat) :
  forall f2 src,
  (List.length src <= f1)%nat -> (List.length src <= f2)%nat ->
  base64.decodeLoop strict f1 src = base64.decodeLoop strict f2 src.
Proof.
  induction f1 as [| f1 IH]; intros f2 [| c src] H1 H2;
    try (destruct f2; reflexivity); cbn [List.length] in *; try lia.
  destruct f2 as [| f2]; [lia |]. cbn [base64.decodeLoop].
  pose proof (decodeQuantum_rest strict src [] c) as Hrest.
  destruct (base64.decodeQuantum strict [] (c :: src)) as [[rest out] [e |]];
    [reflexivity |].
  cbn [fst] in Hrest. rewrite (IH f2 rest) by lia. reflexivity.
Qed.

(** ** The characters of encoded texts *)

Lemma encode_isStdBase64 (s : Z) :
  0 <= s < 64 -> isStdBase64 (base64.encode s) = true.
Proof.
  intros Hs.
  assert (Hall : forallb (fun n => isStdBase64 (base64.encode (Z.of_nat n)))
                   (seq 0 64) = true) by (vm_compute; reflexivity).
  rewrite forallb_forall in Hall. specialize (Hall (Z.to_nat s)).
  rewrite Z2Nat.id in Hall by lia. apply Hall. apply in_seq. lia.
Qed.

Lemma Encode_isStdBase64 (bs : list byte) :
  forallb isStdBase64 (base64.Encode bs) = true.
Proof.
  induction bs as [| b0 | b0 b1 | b0 b1 b2 rest IH] using list_ind3;
    cbn [base64.Encode forallb];
    rewrite ?encode_isStdBase64 by apply sextet_range;
    rewrite ?IH; reflexivity.
Qed.

Lemma Encode_length (bs : list byte) :
  List.length (base64.Encode bs) = (4 * ((List.length bs + 2) / 3))%nat.
Proof.
  induction bs as [| b0 | b0 b1 | b0 b1 b2 rest IH] using list_ind3;
    try reflexivity.
  cbn [base64.Encode List.length]. rewrite IH.
  replace (S (S (S (List.length rest))) + 2)%nat
    with (List.length rest + 2 + 1 * 3)%nat by lia.
  rewrite Nat.div_add by lia. lia.
Qed.

Lemma digit_isLowerHex (i : Z) : 0 <= i < 16 -> isLowerHex (hex.digit i) = true.
Proof.
  intros Hi.
  assert (Hall : forallb (fun n => isLowerHex (hex.digit (Z.of_nat n)))
                   (seq 0 16) = true) by (vm_compute; reflexivity).
  rewrite forallb_forall in Hall. specialize (Hall (Z.to_nat i)).
  rewrite Z2Nat.id in Hall by lia. apply Hall. apply in_seq. lia.
Qed.

Lemma hex_Encode_isLowerHex (bs : list byte) :
  forallb isLowerHex (hex.Encode bs) = true.
Proof.
  induction bs as [| v rest IH]; [reflexivity |].
  cbn [hex.Encode forallb]. pose proof (int_of_byte_range v).
  rewrite !digit_isLowerHex, IH; [reflexivity | |].
  - rewrite land_15. apply Z.mod_pos_bound. lia.
  - rewrite Z.shiftr_div_pow2 by lia. change (2 ^ 4) with 16.
    Z.div_mod_to_equations; lia.
Qed.

Lemma hex_Encode_length (bs : list byte) :
  List.length (hex.Encode bs) = (2 * List.length bs)%nat.
Proof.
  induction bs as [| v rest IH]; [reflexivity |].
  cbn [hex.Encode List.length]. rewrite IH. lia.
Qed.

Lemma string_length_of_bytes (b : list byte) :
  String.length (string_of_bytes b) = List.length b.
Proof.
  induction b as [| c b IH]; [reflexivity |]. cbn. f_equal. exact IH.
Qed.

Lemma length_bytes_of_string (s : string) :
  List.length (bytes_of_string s) = String.length s.
Proof.
  induction s as [| c s IH]; [reflexivity |]. cbn. f_equal. exact IH.
Qed.

Lemma isLowerHex_not_dash (c : byte) :
  isLowerHex c = true -> Ascii.eqb c "-" = false.
Proof.
  intros H. destruct (Ascii.eqb_spec c "-") as [-> |]; [discriminate H | reflexivity].
Qed.

Lemma isStdBase64_not_dash (c : byte) :
  isStdBase64 c = true -> Ascii.eqb c "-" = false.
Proof.
  intros H. destruct (Ascii.eqb_spec c "-") as [-> |]; [discriminate H | reflexivity].
Qed.

(** ** Splitting *)

Lemma append_assoc_char (cur : string) (c : ascii) (s : string) :
  ((cur ++ String c EmptyString) ++ s)%string = (cur ++ String c s)%string.
Proof.
  induction cur as [| d cur IH]; [reflexivity |]. cbn. now rewrite IH.
Qed.

Lemma append_empty_r (s : string) : (s ++ "")%string = s.
Proof.
  induction s as [| d s IH]; [reflexivity |]. cbn. now rewrite IH.
Qed.

Lemma SplitFrom_no_dash (s : string) :
  forall cur, allChars notDash s = true ->
  strings.SplitFrom cur s = [(cur ++ s)%string].
Proof.
  induction s as [| c s IH]; intros cur H.
  - cbn. now rewrite append_empty_r.
  - unfold allChars in H. cbn in H. apply andb_prop in H as [Hc Hs].
    unfold notDash in Hc. apply negb_true_iff in Hc.
    cbn [strings.SplitFrom]. rewrite Hc. cbn [andb].
    assert (Hgo : strings.SplitFrom (cur ++ String c "") s
                  = [(cur ++ String c s)%string]).
    { rewrite IH by exact Hs. now rewrite append_assoc_char. }
    destruct s; exact Hgo.
Qed.

Lemma SplitFrom_separator (s t : string) :
  forall cur, allChars notDash s = true ->
  strings.SplitFrom cur (s ++ "--" ++ t)
  = (cur ++ s)%string :: strings.SplitFrom "" t.
Proof.
  induction s as [| c s IH]; intros cur H.
  - cbn. now rewrite append_empty_r.
  - unfold allChars in H. cbn in H. apply andb_prop in H as [Hc Hs].
    unfold notDash in Hc. apply negb_true_iff in Hc.
    assert (Hgo : strings.SplitFrom (cur ++ String c "") (s ++ "--" ++ t)
                  = (cur ++ String c s)%string :: strings.SplitFrom "" t).
    { rewrite IH by exact Hs. now rewrite append_assoc_char. }
    change (String c s ++ "--" ++ t)%string
      with (String c (s ++ "--" ++ t)%string).
    generalize dependent (s ++ "--" ++ t)%string. intros r _ Hgo.
    cbn [strings.SplitFrom]. rewrite Hc. cbn [andb].
    destruct r; exact Hgo.
Qed.

(** A text without dashes, the separator, and another such text split into
    exactly these two texts. *)
Lemma Split_signed (s t : string) :
  allChars notDash s = true -> allChars notDash t = true ->
  strings.Split_dashes (s ++ "--" ++ t) = [s; t].
Proof.
  intros Hs Ht. unfold strings.Split_dashes.
  rewrite SplitFrom_separator by exact Hs.
  rewrite SplitFrom_no_dash by exact Ht. reflexivity.
Qed.

(** ** The comparison loop *)

Lemma skipn_nth_error (A : Type) (l : list A) :
  forall i x, nth_error l i = Some x -> skipn i l = x :: skipn (S i) l.
Proof.
  induction l as [| y l IH]; intros [| i] x H; try discriminate H.
  - now injection H as ->.
  - cbn in H. cbn [skipn]. rewrite (IH i x H). reflexivity.
Qed.

(** From any state [(i, res)] the loop runs to the end of [a]: it returns
    with [i = len(a)], having or-ed into [res] the xor of every remaining
    pair of bytes. *)
Lemma secureCompare_loop_runs (fuel : nat) (a b : list byte) :
  forall i res,
  List.length a = List.length b -> (i + fuel = List.length a)%nat ->
  secureCompare_loop fuel a b i res
  = Returns (List.length a,
             fold_left Z.lor (xorDiffs (skipn i a) (skipn i b)) res).
Proof.
  induction fuel as [| fuel IH]; intros i res Hlen Hi.
  - cbn [secureCompare_loop]. rewrite Nat.add_0_r in Hi. subst i.
    rewrite skipn_all. reflexivity.
  - cbn [secureCompare_loop].
    assert (Hlt : (i <? List.length a)%nat = true) by (apply Nat.ltb_lt; lia).
    rewrite Hlt. unfold index.
    destruct (nth_error b i) as [bi |] eqn:Hb.
    2: { apply nth_error_None in Hb. lia. }
    destruct (nth_error a i) as [ai |] eqn:Ha.
    2: { apply nth_error_None in Ha. lia. }
    rewrite IH by lia.
    rewrite (skipn_nth_error _ a i ai Ha), (skipn_nth_error _ b i bi Hb).
    reflexivity.
Qed.

Lemma fold_lor_zero (l : list Z) :
  forall res, 0 <= res -> Forall (fun x => 0 <= x) l ->
  (fold_left Z.lor l res = 0 <-> res = 0 /\ Forall (fun x => x = 0) l).
Proof.
  induction l as [| x l IH]; intros res Hres Hl.
  - cbn. split; [intros ->; split; [reflexivity | constructor] | tauto].
  - inversion Hl as [| ? ? Hx Hl']; subst. cbn [fold_left].
    rewrite IH by (try apply Z.lor_nonneg; auto).
    rewrite Z.lor_eq_0_iff. split.
    + intros [[-> ->] H]. split; [reflexivity | constructor; auto].
    + intros [-> H]. inversion H; subst. auto.
Qed.

Lemma xorDiffs_nonneg (a b : list byte) :
  Forall (fun x => 0 <= x) (xorDiffs a b).
Proof.
  unfold xorDiffs. apply Forall_forall. intros x Hx.
  apply in_map_iff in Hx as [[p q] [<- _]]. cbn [fst snd].
  apply Z.lxor_nonneg.
  pose proof (int_of_byte_range p). pose proof (int_of_byte_range q). lia.
Qed.

Lemma xorDiffs_zero (a : list byte) :
  forall b, List.length a = List.length b ->
  (Forall (fun x => x = 0) (xorDiffs a b) <-> a = b).
Proof.
  induction a as [| x a IH]; intros [| y b] Hlen; try discriminate Hlen.
  - split; [reflexivity | constructor].
  - cbn in Hlen. injection Hlen as Hlen. unfold xorDiffs. cbn [combine map fst snd].
    fold (xorDiffs a b). split.
    + intros H. inversion H as [| ? ? Hxy Hrest]; subst.
      apply Z.lxor_eq in Hxy. apply int_of_byte_inj in Hxy. subst y.
      f_equal. now apply IH.
    + intros H. injection H as -> ->. constructor.
      * apply Z.lxor_nilpotent.
      * now apply IH.
Qed.

(** [secureCompare] never panics: it is the length test followed by the
    OR-reduction of the XOR differences. *)
Lemma secureCompare_reduces (strA strB : string) :
  secureCompare strA strB
  = Returns ((String.length strA =? String.length strB)%nat
             && (orReduce (xorDiffs (bytes_of_string strA)
                                    (bytes_of_string strB)) =? 0)).
Proof.
  unfold secureCompare. rewrite !length_bytes_of_string.
  destruct (String.length strA =? String.length strB)%nat eqn:Hlen;
    [| reflexivity].
  apply Nat.eqb_eq in Hlen. cbn [negb andb].
  rewrite <- (length_bytes_of_string strA).
  rewrite secureCompare_loop_runs;
    [reflexivity | rewrite !length_bytes_of_string; exact Hlen | lia].
Qed.

Lemma bytes_of_string_inj (s t : string) :
  bytes_of_string s = bytes_of_string t -> s = t.
Proof.
  intros H. rewrite <- (string_of_bytes_of_string s),
    <- (string_of_bytes_of_string t). now rewrite H.
Qed.

Lemma secureCompare_true_iff (strA strB : string) :
  secureCompare strA strB = Returns true <-> strA = strB.
Proof.
  rewrite secureCompare_reduces. split.
  - intros H. injection H as H. apply andb_prop in H as [Hlen Hor].
    apply Nat.eqb_eq in Hlen. apply Z.eqb_eq in Hor.
    apply bytes_of_string_inj. apply xorDiffs_zero.
    + now rewrite !length_bytes_of_string.
    + unfold orReduce in Hor.
      apply fold_lor_zero in Hor; [tauto | lia | apply xorDiffs_nonneg].
  - intros <-. rewrite Nat.eqb_refl. cbn [andb]. f_equal. apply Z.eqb_eq.
    unfold orReduce. apply fold_lor_zero;
      [lia | apply xorDiffs_nonneg | split; [reflexivity |]].
    now apply xorDiffs_zero.
Qed.

(** Without the length test the loop would index past the end of a
    shorter [b]; with it the answer is false. *)
Example secureCompare_shorter :
  secureCompare_loop 3 (bytes_of_string "abc") (bytes_of_string "ab") 0 0
  = Panics
  /\ secureCompare "abc" "ab" = Returns false.
Proof. split; reflexivity. Qed.

Lemma secureCompare_eqb (strA strB : string) :
  secureCompare strA strB = Returns (String.eqb strA strB).
Proof.
  pose proof (secureCompare_true_iff strA strB) as Hiff.
  rewrite secureCompare_reduces in *.
  destruct (String.eqb_spec strA strB) as [Heq | Hne].
  - f_equal. apply Hiff in Heq. now injection Heq.
  - f_equal. match goal with |- ?x = false => destruct x eqn:Hx end;
      [| reflexivity].
    exfalso. apply Hne. apply Hiff. reflexivity.
Qed.

(** ** Configuration validation *)

Section Validation.

Context {V : Type}.
Implicit Types (c : MessageVerifier V) (t : V) (u : list string).

Lemma Secret_defaulted c : Secret (defaulted c) = Secret c.
Proof. unfold defaulted. destruct (Hasher c); reflexivity. Qed.

Lemma Serializer_defaulted c : Serializer (defaulted c) = Serializer c.
Proof. unfold defaulted. destruct (Hasher c); reflexivity. Qed.

Lemma Hasher_defaulted c : Hasher (defaulted c) = Some (hasherOf c).
Proof.
  unfold defaulted, hasherOf. destruct (Hasher c) eqn:H; [exact H | reflexivity].
Qed.

Lemma defaulted_idempotent c : defaulted (defaulted c) = defaulted c.
Proof. unfold defaulted at 1. now rewrite Hasher_defaulted. Qed.

Lemma configured_inv c :
  configured c = true ->
  exists ser k, Serializer c = Some ser /\ Secret c = Some k.
Proof.
  unfold configured. destruct (Serializer c) as [ser |]; [| discriminate].
  destruct (Secret c) as [k |]; [| discriminate]. eauto.
Qed.

Lemma checkInit_nil t u :
  checkInit {| crypt := None; target := t; unserialized := u |}
  = (Returns (Some (errors_New "MessageVerifier not set")),
     {| crypt := None; target := t; unserialized := u |}).
Proof. reflexivity. Qed.

Lemma checkInit_no_serializer c t u :
  Serializer c = None ->
  checkInit {| crypt := Some c; target := t; unserialized := u |}
  = (Returns (Some (errors_New "Serializer not set")),
     {| crypt := Some c; target := t; unserialized := u |}).
Proof.
  intros H. unfold checkInit, bind, receiver, ret. cbn [crypt].
  rewrite H. reflexivity.
Qed.

(** With a Serializer the Hasher is defaulted, then the Secret is tested. *)
Lemma checkInit_serializer c t u ser :
  Serializer c = Some ser ->
  checkInit {| crypt := Some c; target := t; unserialized := u |}
  = (Returns match Secret c with
             | None => Some (errors_New "Secret not set")
             | Some _ => None
             end,
     {| crypt := Some (defaulted c); target := t; unserialized := u |}).
Proof.
  intros H. unfold checkInit, bind, receiver, ret. cbn [crypt].
  rewrite H. unfold defaulted.
  destruct (Hasher c) eqn:Hh.
  - destruct (Secret c); reflexivity.
  - unfold setHasher, deref, bind, receiver, ret. cbn [crypt target unserialized].
    destruct (Secret c); reflexivity.
Qed.

Lemma checkInit_configured c t u :
  configured c = true ->
  checkInit {| crypt := Some c; target := t; unserialized := u |}
  = (Returns None,
     {| crypt := Some (defaulted c); target := t; unserialized := u |}).
Proof.
  intros H. apply configured_inv in H as (ser & k & Hser & Hk).
  rewrite (checkInit_serializer c t u ser Hser), Hk. reflexivity.
Qed.

Lemma DigestFor_validated c t u k data :
  Secret c = Some k ->
  DigestFor data {| crypt := Some (defaulted c); target := t; unserialized := u |}
  = (Returns (digestOf (hasherOf c) k data),
     {| crypt := Some (defaulted c); target := t; unserialized := u |}).
Proof.
  intros Hk. unfold DigestFor, deref, bind, receiver, ret. cbn [crypt].
  rewrite Secret_defaulted, Hk, Hasher_defaulted. reflexivity.
Qed.

Lemma callUnserialize_run c t u ser data :
  Serializer c = Some ser ->
  callUnserialize V data {| crypt := Some c; target := t; unserialized := u |}
  = (Returns (snd (Unserialize ser data t)),
     {| crypt := Some c; target := fst (Unserialize ser data t);
        unserialized := u ++ [data] |}).
Proof.
  intros Hser. unfold callUnserialize, bind, deref, bind, receiver, ret.
  cbn [crypt target unserialized]. rewrite Hser.
  cbn [crypt target unserialized].
  destruct (Unserialize ser data t). reflexivity.
Qed.

(** [Verify] on a configured verifier, step by step. *)
Lemma Verify_steps c t u ser k msg :
  Serializer c = Some ser -> Secret c = Some k ->
  Verify msg {| crypt := Some c; target := t; unserialized := u |}
  = let w t' u' :=
      {| crypt := Some (defaulted c); target := t'; unserialized := u' |} in
    if String.eqb msg "" then (Returns (Some (invalid "empty message")), w t u)
    else
      match strings.Split_dashes msg with
      | [data; digest] =>
          if String.eqb digest (digestOf (hasherOf c) k data) then
            let decoded := string_of_bytes (fst (base64.DecodeString_strict data)) in
            let quoted := (quote ++ decoded ++ quote)%string in
            match Unserialize ser quoted t with
            | (t1, None) => (Returns None, w t1 (u ++ [quoted]))
            | (t1, Some _) =>
                match Unserialize ser decoded t1 with
                | (t2, None) => (Returns None, w t2 (u ++ [quoted; decoded]))
                | (t2, Some e) =>
                    (Returns (Some (wrapError
                       ("failed to unserialize both quoted and raw data: "
                          ++ Error e)%string e)),
                     w t2 (u ++ [quoted; decoded]))
                end
            end
          else (Returns (Some (invalid "bad data (compare)")), w t u)
      | _ => (Returns (Some (invalid "bad data --")), w t u)
      end.
Proof.
  intros Hser Hk. cbv zeta. unfold Verify. unfold bind at 1.
  rewrite checkInit_configured by (unfold configured; now rewrite Hser, Hk).
  destruct (String.eqb msg "") eqn:Hmsg; [reflexivity |].
  destruct (strings.Split_dashes msg) as [| data [| digest [| x l]]];
    try reflexivity.
  unfold bind at 1. rewrite (DigestFor_validated c t u k data Hk).
  unfold bind at 1. unfold lift. rewrite secureCompare_eqb.
  destruct (String.eqb digest (digestOf (hasherOf c) k data)); [| reflexivity].
  cbn [Bool.eqb].
  destruct (base64.DecodeString_strict data) as [decodedData derr].
  cbn [fst].
  assert (Hser' : Serializer (defaulted c) = Some ser)
    by now rewrite Serializer_defaulted.
  unfold bind at 1. rewrite (callUnserialize_run _ _ _ ser _ Hser').
  destruct (Unserialize ser _ t) as [t1 [e1 |]]; cbn [fst snd];
    [| reflexivity].
  unfold bind at 1. rewrite (callUnserialize_run _ _ _ ser _ Hser').
  destruct (Unserialize ser _ t1) as [t2 [e2 |]]; cbn [fst snd];
    rewrite <- app_assoc; reflexivity.
Qed.

End Validation.

(** ** The operations on any world *)

Section Operations.

Context {V : Type}.
Implicit Types (c : MessageVerifier V) (t : V) (u : list string) (w : world V).

Lemma checkInit_result w :
  checkInit w
  = (Returns (configError (crypt w)),
     {| crypt := option_map validated (crypt w); target := target w;
        unserialized := unserialized w |}).
Proof.
  destruct w as [[c |] t u]; cbn [crypt target unserialized option_map].
  - unfold configError, validated.
    destruct (Serializer c) as [ser |] eqn:Hser.
    + rewrite (checkInit_serializer c t u ser Hser).
      destruct (Secret c); reflexivity.
    + now rewrite (checkInit_no_serializer c t u Hser).
  - reflexivity.
Qed.

Lemma configError_None w :
  configError (crypt w) = None ->
  exists c ser k,
    crypt w = Some c /\ Serializer c = Some ser /\ Secret c = Some k.
Proof.
  unfold configError. destruct (crypt w) as [c |]; [| discriminate].
  destruct (Serializer c) as [ser |] eqn:Hser; [| discriminate].
  destruct (Secret c) as [k |] eqn:Hk; [| discriminate].
  intros _. exists c, ser, k. auto.
Qed.

(** A failed validation ends every public operation. *)
Lemma IsValid_result w :
  IsValid w
  = (Returns match configError (crypt w) with
             | Some e => (false, Some e)
             | None => (true, None)
             end,
     {| crypt := option_map validated (crypt w); target := target w;
        unserialized := unserialized w |}).
Proof.
  unfold IsValid, bind. rewrite checkInit_result.
  destruct (configError (crypt w)); reflexivity.
Qed.

Lemma Verify_config_error w msg e :
  configError (crypt w) = Some e ->
  Verify msg w
  = (Returns (Some e),
     {| crypt := option_map validated (crypt w); target := target w;
        unserialized := unserialized w |}).
Proof.
  intros H. unfold Verify, bind. rewrite checkInit_result, H. reflexivity.
Qed.

Lemma Generate_config_error w v e :
  configError (crypt w) = Some e ->
  Generate v w
  = (Returns ("", Some e),
     {| crypt := option_map validated (crypt w); target := target w;
        unserialized := unserialized w |}).
Proof.
  intros H. unfold Generate, bind. rewrite checkInit_result, H. reflexivity.
Qed.

(** [Generate] on a configured verifier. *)
Lemma Generate_steps c t u ser k v :
  Serializer c = Some ser -> Secret c = Some k ->
  Generate v {| crypt := Some c; target := t; unserialized := u |}
  = (Returns match Serialize ser v with
             | (_, Some e) => ("", Some e)
             | (data, None) =>
                 let str := base64.EncodeToString (bytes_of_string data) in
                 ((str ++ "--" ++ digestOf (hasherOf c) k str)%string, None)
             end,
     {| crypt := Some (defaulted c); target := t; unserialized := u |}).
Proof.
  intros Hser Hk. unfold Generate. unfold bind at 1.
  rewrite checkInit_configured by (unfold configured; now rewrite Hser, Hk).
  unfold bind at 1. unfold callSerialize, bind, deref, bind, receiver, ret.
  cbn [crypt]. rewrite Serializer_defaulted, Hser.
  destruct (Serialize ser v) as [data [e |]]; [reflexivity |].
  rewrite (DigestFor_validated c t u k _ Hk). reflexivity.
Qed.

End Operations.

(** ** Signed strings *)

Lemma allChars_impl (p q : byte -> bool) (s : string) :
  (forall c, p c = true -> q c = true) ->
  allChars p s = true -> allChars q s = true.
Proof.
  intros Hpq. unfold allChars. rewrite !forallb_forall. auto.
Qed.

Lemma EncodeToString_isStdBase64 (bs : list byte) :
  allChars isStdBase64 (base64.EncodeToString bs) = true.
Proof.
  unfold allChars, base64.EncodeToString.
  rewrite bytes_of_string_of_bytes. apply Encode_isStdBase64.
Qed.

Lemma EncodeToString_length (bs : list byte) :
  String.length (base64.EncodeToString bs)
  = (4 * ((List.length bs + 2) / 3))%nat.
Proof.
  unfold base64.EncodeToString. rewrite string_length_of_bytes.
  apply Encode_length.
Qed.

Lemma hex_isLowerHex (bs : list byte) :
  allChars isLowerHex (hex.EncodeToString bs) = true.
Proof.
  unfold allChars, hex.EncodeToString.
  rewrite bytes_of_string_of_bytes. apply hex_Encode_isLowerHex.
Qed.

Lemma hex_length (bs : list byte) :
  String.length (hex.EncodeToString bs) = (2 * List.length bs)%nat.
Proof.
  unfold hex.EncodeToString. rewrite string_length_of_bytes.
  apply hex_Encode_length.
Qed.

Lemma EncodeToString_no_dash (bs : list byte) :
  allChars notDash (base64.EncodeToString bs) = true.
Proof.
  apply (allChars_impl isStdBase64); [| apply EncodeToString_isStdBase64].
  intros c Hc. unfold notDash. now rewrite isStdBase64_not_dash.
Qed.

Lemma hex_no_dash (bs : list byte) :
  allChars notDash (hex.EncodeToString bs) = true.
Proof.
  apply (allChars_impl isLowerHex); [| apply hex_isLowerHex].
  intros c Hc. unfold notDash. now rewrite isLowerHex_not_dash.
Qed.

Lemma signed_not_empty (s t : string) :
  String.eqb (s ++ "--" ++ t) "" = false.
Proof. destruct s; reflexivity. Qed.

(** A generated string splits into its encoded data and its digest. *)
Lemma Split_generated (h : Hash) (k : list byte) (data : string) :
  let str := base64.EncodeToString (bytes_of_string data) in
  strings.Split_dashes (str ++ "--" ++ digestOf h k str)
  = [str; digestOf h k str].
Proof.
  intros str. apply Split_signed.
  - apply EncodeToString_no_dash.
  - apply hex_no_dash.
Qed.

Section Generated.

Context {V : Type}.
Implicit Types (c : MessageVerifier V) (t : V) (u : list string).

Lemma hasherOf_defaulted c : hasherOf (defaulted c) = hasherOf c.
Proof.
  unfold hasherOf at 1. now rewrite Hasher_defaulted.
Qed.

(** [Verify] on what [Generate] makes of the serialized [data]: the digest
    matches, the data decode, and the quoted form is tried before the data
    themselves. *)
Lemma Verify_generated c t u ser k data :
  Serializer c = Some ser -> Secret c = Some k ->
  let str := base64.EncodeToString (bytes_of_string data) in
  let quoted := (quote ++ data ++ quote)%string in
  Verify (str ++ "--" ++ digestOf (hasherOf c) k str)
    {| crypt := Some c; target := t; unserialized := u |}
  = match Unserialize ser quoted t with
    | (t1, None) =>
        (Returns None,
         {| crypt := Some (defaulted c); target := t1;
            unserialized := u ++ [quoted] |})
    | (t1, Some _) =>
        match Unserialize ser data t1 with
        | (t2, None) =>
            (Returns None,
             {| crypt := Some (defaulted c); target := t2;
                unserialized := u ++ [quoted; data] |})
        | (t2, Some e) =>
            (Returns (Some (wrapError
               ("failed to unserialize both quoted and raw data: "
                  ++ Error e)%string e)),
             {| crypt := Some (defaulted c); target := t2;
                unserialized := u ++ [quoted; data] |})
        end
    end.
Proof.
  intros Hser Hk str quoted.
  rewrite (Verify_steps c t u ser k _ Hser Hk). cbv zeta.
  rewrite signed_not_empty. unfold str at 1 2. rewrite Split_generated.
  fold str. rewrite String.eqb_refl.
  unfold str. rewrite DecodeString_EncodeToString. cbn [fst].
  rewrite string_of_bytes_of_string. reflexivity.
Qed.

End Generated.

Lemma Verify_generated_validated (V : Type) (c : MessageVerifier V)
    (t : V) (u : list string) (ser : MsgSerializer V) (k : list byte)
    (data : string) :
  Serializer c = Some ser -> Secret c = Some k ->
  let str := base64.EncodeToString (bytes_of_string data) in
  let quoted := (quote ++ data ++ quote)%string in
  Verify (str ++ "--" ++ digestOf (hasherOf c) k str)
    {| crypt := Some (defaulted c); target := t; unserialized := u |}
  = match Unserialize ser quoted t with
    | (t1, None) =>
        (Returns None,
         {| crypt := Some (defaulted c); target := t1;
            unserialized := u ++ [quoted] |})
    | (t1, Some _) =>
        match Unserialize ser data t1 with
        | (t2, None) =>
            (Returns None,
             {| crypt := Some (defaulted c); target := t2;
                unserialized := u ++ [quoted; data] |})
        | (t2, Some e) =>
            (Returns (Some (wrapError
               ("failed to unserialize both quoted and raw data: "
                  ++ Error e)%string e)),
             {| crypt := Some (defaulted c); target := t2;
                unserialized := u ++ [quoted; data] |})
        end
    end.
Proof.
  intros Hser Hk.
  pose proof (Verify_generated (defaulted c) t u ser k data) as H.
  rewrite hasherOf_defaulted, defaulted_idempotent in H.
  apply H.
  - now rewrite Serializer_defaulted.
  - now rewrite Secret_defaulted.
Qed.

(** * The statements of the specification *)

(** C5. On a configured verifier whose Serializer succeeds on the value,
    [Generate] returns [encoded ++ "--" ++ digest], where [encoded] is the
    padded base64 text, in the standard alphabet, of the serialized bytes
    (strict decoding gives these bytes back) and [digest] is what [DigestFor]
    returns for [encoded], the hexadecimal HMAC of the encoded text, not of
    the serialized bytes. *)
Theorem Generate_format (V : Type) (c : MessageVerifier V)
    (ser : MsgSerializer V) (k : list byte) (v : V) (data : string)
    (t : V) (u : list string) :
  Serializer c = Some ser -> Secret c = Some k ->
  Serialize ser v = (data, None) ->
  let encoded := base64.EncodeToString (bytes_of_string data) in
  let w' := {| crypt := Some (defaulted c); target := t; unserialized := u |} in
  exists digest,
    DigestFor encoded w' = (Returns digest, w')
    /\ Generate v {| crypt := Some c; target := t; unserialized := u |}
       = (Returns ((encoded ++ "--" ++ digest)%string, None), w')
    /\ digest = hex.EncodeToString
                  (hmac.mac (hasherOf c) k (bytes_of_string encoded))
    /\ allChars isStdBase64 encoded = true
    /\ String.length encoded = (4 * ((String.length data + 2) / 3))%nat
    /\ base64.DecodeString_strict encoded = (bytes_of_string data, None).
Proof.
  intros Hser Hk Hdata encoded w'.
  exists (digestOf (hasherOf c) k encoded). repeat split.
  - apply DigestFor_validated. exact Hk.
  - rewrite (Generate_steps c t u ser k v Hser Hk), Hdata. reflexivity.
  - apply EncodeToString_isStdBase64.
  - unfold encoded. rewrite EncodeToString_length, length_bytes_of_string.
    reflexivity.
  - apply DecodeString_EncodeToString.
Qed.

Lemma Generate_format_witness :
  exists digest,
    Generate "hello" (sampleWorld QuotedSerializer)
    = (Returns (("ImhlbGxvIg==--" ++ digest)%string, None),
       {| crypt := Some (defaulted (sampleVerifier QuotedSerializer));
          target := ""; unserialized := [] |})
    /\ digest = digestOf sha1.New sampleSecret "ImhlbGxvIg==".
Proof.
  destruct (Generate_format string (sampleVerifier QuotedSerializer)
              QuotedSerializer sampleSecret "hello" (quote ++ "hello" ++ quote)
              "" [] eq_refl eq_refl eq_refl)
    as (digest & _ & Hg & Hd & _).
  exists digest. split; [exact Hg | exact Hd].
Defined.

(** C1, as the code has it.  On a configured verifier whose Serializer
    round-trips [v], [Generate] succeeds with a signed string, on which
    [Verify] succeeds, called on the same struct or on one that validates to
    the same configuration.  [Verify] tries the quoted form of the serialized
    data first: when the Serializer rejects it the target ends up equal to
    [v]; when the Serializer accepts it the target holds what that first
    attempt stored. *)
Theorem Generate_Verify_roundtrip (V : Type) (c c2 : MessageVerifier V)
    (ser : MsgSerializer V) (k : list byte) (v : V) (data : string)
    (t : V) (u : list string) (t' : V) (u' : list string) :
  Serializer c = Some ser -> Secret c = Some k ->
  Serialize ser v = (data, None) ->
  (forall t0, Unserialize ser data t0 = (v, None)) ->
  defaulted c2 = defaulted c ->
  exists s,
    Generate v {| crypt := Some c; target := t; unserialized := u |}
    = (Returns (s, None),
       {| crypt := Some (defaulted c); target := t; unserialized := u |})
    /\ let quoted := (quote ++ data ++ quote)%string in
       let w := {| crypt := Some c2; target := t'; unserialized := u' |} in
       (snd (Unserialize ser quoted t') <> None ->
        Verify s w
        = (Returns None,
           {| crypt := Some (defaulted c); target := v;
              unserialized := u' ++ [quoted; data] |}))
       /\ (snd (Unserialize ser quoted t') = None ->
           Verify s w
           = (Returns None,
              {| crypt := Some (defaulted c);
                 target := fst (Unserialize ser quoted t');
                 unserialized := u' ++ [quoted] |})).
Proof.
  intros Hser Hk Hdata Hround Hsame.
  assert (Hser2 : Serializer c2 = Some ser)
    by now rewrite <- Serializer_defaulted, Hsame, Serializer_defaulted.
  assert (Hk2 : Secret c2 = Some k)
    by now rewrite <- Secret_defaulted, Hsame, Secret_defaulted.
  assert (Hh : hasherOf c2 = hasherOf c).
  { pose proof (Hasher_defaulted c2) as H.
    rewrite Hsame, Hasher_defaulted in H. now injection H. }
  eexists. split.
  - rewrite (Generate_steps c t u ser k v Hser Hk), Hdata. reflexivity.
  - cbv zeta. rewrite <- Hh.
    rewrite (Verify_generated c2 t' u' ser k data Hser2 Hk2), Hsame.
    destruct (Unserialize ser (quote ++ data ++ quote) t') as [t1 [e |]];
      cbn [fst snd]; split; intros H; try congruence.
    now rewrite Hround.
Qed.

Lemma Generate_Verify_roundtrip_witness :
  exists s,
    Generate "hello" (sampleWorld QuotedSerializer)
    = (Returns (s, None),
       {| crypt := Some (defaulted (sampleVerifier QuotedSerializer));
          target := ""; unserialized := [] |})
    /\ Verify s (sampleWorld QuotedSerializer)
       = (Returns None,
          {| crypt := Some (defaulted (sampleVerifier QuotedSerializer));
             target := "hello";
             unserialized := [(quote ++ (quote ++ "hello" ++ quote) ++ quote)%string;
                              (quote ++ "hello" ++ quote)%string] |}).
Proof.
  destruct (Generate_Verify_roundtrip string (sampleVerifier QuotedSerializer)
              (sampleVerifier QuotedSerializer)
              QuotedSerializer sampleSecret "hello" (quote ++ "hello" ++ quote)
              "" [] "" [] eq_refl eq_refl eq_refl (fun _ => eq_refl) eq_refl)
    as (s & Hg & Hq & _).
  exists s. split; [exact Hg |]. apply Hq. vm_compute. discriminate.
Defined.

(** C1 as stated fails: the Serializer below round-trips every text, yet
    [Verify] leaves the quoted text in the target, because the quoted form is
    accepted at the first attempt. *)
Lemma roundtrip_fails_for_RawSerializer :
  let w1 := {| crypt := Some (defaulted (sampleVerifier RawSerializer));
               target := ""; unserialized := [] |} in
  let s := "aGVsbG8=--9323e3d308a566952d5cbd1e3eacf11e07f4c649" in
  (forall t, Unserialize RawSerializer
               (fst (Serialize RawSerializer "hello")) t = ("hello", None))
  /\ Generate "hello" (sampleWorld RawSerializer) = (Returns (s, None), w1)
  /\ exists w2,
       Verify s w1 = (Returns None, w2)
       /\ target w2 = (quote ++ "hello" ++ quote)%string
       /\ target w2 <> "hello".
Proof.
  cbv zeta.
  assert (Hs : "aGVsbG8=--9323e3d308a566952d5cbd1e3eacf11e07f4c649"
               = (base64.EncodeToString (bytes_of_string "hello") ++ "--"
                  ++ digestOf (hasherOf (sampleVerifier RawSerializer))
                       sampleSecret
                       (base64.EncodeToString (bytes_of_string "hello")))%string)
    by (vm_compute; reflexivity).
  split; [reflexivity |]. split.
  - unfold sampleWorld.
    rewrite (Generate_steps (sampleVerifier RawSerializer) "" []
               RawSerializer sampleSecret "hello" eq_refl eq_refl).
    cbn [Serialize RawSerializer]. cbv zeta. rewrite <- Hs. reflexivity.
  - rewrite Hs.
    rewrite (Verify_generated_validated string (sampleVerifier RawSerializer)
               "" [] RawSerializer sampleSecret "hello" eq_refl eq_refl).
    cbn [Unserialize RawSerializer]. eexists. split; [reflexivity |].
    cbn [target]. split; [reflexivity | discriminate].
Qed.

Lemma Split_two_not_empty (msg data digest : string) :
  strings.Split_dashes msg = [data; digest] -> String.eqb msg "" = false.
Proof. destruct msg; [discriminate | reflexivity]. Qed.

(** C2. [secureCompare] answers false for texts of different lengths, by the
    length test alone.  For texts of equal length its loop visits every
    position (it ends with [i = len(a)]) and computes the OR-reduction of the
    XOR differences, whatever the bytes are, and the answer is true exactly
    for equal texts.  On a configured verifier and a message with two
    halves, [Verify] fails with an InvalidSignature error exactly when the
    comparison of the digest half with [DigestFor(data)] answers false. *)
Theorem secureCompare_constant_time (strA strB : string) (V : Type)
    (c : MessageVerifier V) (ser : MsgSerializer V) (k : list byte)
    (t : V) (u : list string) (msg data digest : string) :
  Serializer c = Some ser -> Secret c = Some k ->
  strings.Split_dashes msg = [data; digest] ->
  let a := bytes_of_string strA in
  let b := bytes_of_string strB in
  let w := {| crypt := Some c; target := t; unserialized := u |} in
  let w' := {| crypt := Some (defaulted c); target := t; unserialized := u |} in
  let expected := digestOf (hasherOf c) k data in
  (String.length strA <> String.length strB ->
   secureCompare strA strB = Returns false)
  /\ (String.length strA = String.length strB ->
      secureCompare_loop (List.length a) a b 0 0
      = Returns (List.length a, orReduce (xorDiffs a b))
      /\ secureCompare strA strB = Returns (orReduce (xorDiffs a b) =? 0)
      /\ (secureCompare strA strB = Returns true <-> strA = strB))
  /\ DigestFor data w' = (Returns expected, w')
  /\ ((exists e, fst (Verify msg w) = Returns (Some e)
                 /\ InvalidSignature e = true)
      <-> secureCompare digest expected = Returns false).
Proof.
  intros Hser Hk Hsplit a b w w' expected. repeat split.
  - intros Hlen. rewrite secureCompare_reduces.
    apply Nat.eqb_neq in Hlen. now rewrite Hlen.
  - apply secureCompare_loop_runs; [| lia].
    unfold a, b. now rewrite !length_bytes_of_string.
  - rewrite secureCompare_reduces. apply Nat.eqb_eq in H. now rewrite H.
  - apply secureCompare_true_iff.
  - apply secureCompare_true_iff.
  - apply DigestFor_validated. exact Hk.
  - intros (e & He & Hinv). unfold w in He.
    rewrite (Verify_steps c t u ser k msg Hser Hk) in He. cbv zeta in He.
    rewrite (Split_two_not_empty _ _ _ Hsplit), Hsplit in He.
    rewrite secureCompare_eqb. fold expected in He.
    destruct (String.eqb digest expected); [| reflexivity].
    exfalso.
    destruct (Unserialize ser _ t) as [t1 [e1 |]].
    + destruct (Unserialize ser _ t1) as [t2 [e2 |]]; cbn [fst] in He.
      * injection He as <-. discriminate Hinv.
      * discriminate He.
    + discriminate He.
  - intros Hcmp. rewrite secureCompare_eqb in Hcmp. injection Hcmp as Hcmp.
    exists (invalid "bad data (compare)"). split; [| reflexivity].
    unfold w. rewrite (Verify_steps c t u ser k msg Hser Hk). cbv zeta.
    rewrite (Split_two_not_empty _ _ _ Hsplit), Hsplit.
    fold expected. rewrite Hcmp. reflexivity.
Qed.

Lemma secureCompare_constant_time_witness :
  secureCompare "abc" "abd" = Returns false
  /\ secureCompare "abc" "ab" = Returns false
  /\ exists e,
       fst (Verify "x--y" (sampleWorld RawSerializer)) = Returns (Some e)
       /\ InvalidSignature e = true.
Proof.
  destruct (secureCompare_constant_time "abc" "abd" string
              (sampleVerifier RawSerializer) RawSerializer sampleSecret
              "" [] "x--y" "x" "y" eq_refl eq_refl eq_refl)
    as (_ & Heq & _ & Hiff).
  destruct (secureCompare_constant_time "abc" "ab" string
              (sampleVerifier RawSerializer) RawSerializer sampleSecret
              "" [] "x--y" "x" "y" eq_refl eq_refl eq_refl)
    as (Hne & _).
  split; [exact (proj1 (proj2 (Heq eq_refl))) |].
  split; [apply Hne; vm_compute; discriminate |].
  apply Hiff. vm_compute. reflexivity.
Defined.

(** C7. On a configured verifier the empty message, a message without the
    separator and a message with three parts are each rejected with an
    InvalidSignature error; the world after the call has the target and the
    list of [Unserialize] invocations it had before: the target is not
    populated and [Unserialize] is not invoked. *)
Theorem Verify_rejects_malformed (V : Type) (c : MessageVerifier V)
    (t : V) (u : list string) :
  configured c = true ->
  let w := {| crypt := Some c; target := t; unserialized := u |} in
  let w' := {| crypt := Some (defaulted c); target := t; unserialized := u |} in
  Verify "" w = (Returns (Some (invalid "empty message")), w')
  /\ Verify "nodoubledash" w = (Returns (Some (invalid "bad data --")), w')
  /\ Verify "a--b--c" w = (Returns (Some (invalid "bad data --")), w')
  /\ InvalidSignature (invalid "empty message") = true
  /\ InvalidSignature (invalid "bad data --") = true.
Proof.
  intros Hc w w'. apply configured_inv in Hc as (ser & k & Hser & Hk).
  unfold w. rewrite !(Verify_steps c t u ser k _ Hser Hk).
  repeat split.
Qed.

Lemma Verify_rejects_malformed_witness :
  let w' := {| crypt := Some (defaulted (sampleVerifier QuotedSerializer));
               target := ""; unserialized := [] |} in
  Verify "" (sampleWorld QuotedSerializer)
  = (Returns (Some (invalid "empty message")), w')
  /\ Verify "nodoubledash" (sampleWorld QuotedSerializer)
     = (Returns (Some (invalid "bad data --")), w')
  /\ Verify "a--b--c" (sampleWorld QuotedSerializer)
     = (Returns (Some (invalid "bad data --")), w').
Proof.
  destruct (Verify_rejects_malformed string (sampleVerifier QuotedSerializer)
              "" [] eq_refl) as (H1 & H2 & H3 & _).
  repeat split; assumption.
Defined.

(** ** The size of SHA-1 digests *)

Lemma bigEndian_length (n : nat) (x : Z) : List.length (sha1.bigEndian n x) = n.
Proof. induction n as [| n IH]; [reflexivity |]. cbn. now rewrite IH. Qed.

(** SHA-1 digests have 20 bytes, and so have the HMACs made with it. *)
Lemma sha1_Sum_length (written : list byte) :
  List.length (Sum sha1.New written) = 20%nat.
Proof.
  cbn [Sum sha1.New]. rewrite length_map. unfold sha1.checkSum.
  destruct (sha1.blocks _ _ _) as [[[[h0 h1] h2] h3] h4].
  rewrite !length_app, !bigEndian_length. reflexivity.
Qed.

Lemma hmac_sha1_length (key data : list byte) :
  List.length (hmac.mac sha1.New key data) = 20%nat.
Proof. unfold hmac.mac. apply sha1_Sum_length. Qed.

(** ** Messages with an empty half *)

Lemma InvalidSignature_wrapped (e : error) :
  InvalidSignature
    (wrapError ("failed to unserialize both quoted and raw data: "
                  ++ Error e)%string e) = false.
Proof. reflexivity. Qed.

Lemma hex_empty_inv (bs : list byte) : hex.EncodeToString bs = "" -> bs = [].
Proof. destruct bs; [reflexivity | discriminate]. Qed.

(** C4, as the code has it.  On a configured verifier [Verify] fails with an
    InvalidSignature error unless the message splits on the separator into
    exactly two parts.  The split does not test the parts for emptiness: a
    message with an empty digest half is rejected by the digest comparison
    (the hexadecimal digest of a non-empty HMAC is not empty), a message with
    an empty data half is rejected by the comparison when its digest half is
    not the digest of the empty text, and passes it otherwise. *)
Theorem Verify_split_gate (V : Type) (c : MessageVerifier V)
    (ser : MsgSerializer V) (k : list byte) (t : V) (u : list string)
    (msg : string) :
  Serializer c = Some ser -> Secret c = Some k ->
  let w := {| crypt := Some c; target := t; unserialized := u |} in
  let w' := {| crypt := Some (defaulted c); target := t; unserialized := u |} in
  ((forall data digest, strings.Split_dashes msg <> [data; digest]) ->
   exists e, Verify msg w = (Returns (Some e), w')
             /\ InvalidSignature e = true
             /\ (e = invalid "empty message" \/ e = invalid "bad data --"))
  /\ (forall data,
        strings.Split_dashes msg = [data; ""] ->
        hmac.mac (hasherOf c) k (bytes_of_string data) <> [] ->
        Verify msg w = (Returns (Some (invalid "bad data (compare)")), w'))
  /\ (forall data,
        strings.Split_dashes msg = [data; ""] -> Hasher c = None ->
        Verify msg w = (Returns (Some (invalid "bad data (compare)")), w'))
  /\ (forall digest,
        strings.Split_dashes msg = [""; digest] ->
        digest <> digestOf (hasherOf c) k "" ->
        Verify msg w = (Returns (Some (invalid "bad data (compare)")), w'))
  /\ (strings.Split_dashes msg = [""; digestOf (hasherOf c) k ""] ->
      forall e, fst (Verify msg w) = Returns (Some e) ->
                InvalidSignature e = false).
Proof.
  intros Hser Hk w w'. unfold w.
  rewrite (Verify_steps c t u ser k msg Hser Hk). cbv zeta.
  repeat split.
  - intros Hparts.
    destruct (String.eqb msg ""); [eexists; repeat split; auto |].
    destruct (strings.Split_dashes msg) as [| data [| digest [| x l]]];
      try (eexists; repeat split; auto; fail).
    now destruct (Hparts data digest).
  - intros data Hsplit Hmac.
    rewrite (Split_two_not_empty _ _ _ Hsplit), Hsplit.
    destruct (String.eqb_spec "" (digestOf (hasherOf c) k data)) as [He |];
      [| reflexivity].
    symmetry in He. apply hex_empty_inv in He. contradiction.
  - intros data Hsplit Hh.
    rewrite (Split_two_not_empty _ _ _ Hsplit), Hsplit.
    destruct (String.eqb_spec "" (digestOf (hasherOf c) k data)) as [He |];
      [| reflexivity].
    symmetry in He. apply hex_empty_inv in He.
    unfold hasherOf in He. rewrite Hh in He.
    pose proof (hmac_sha1_length k (bytes_of_string data)) as Hlen.
    rewrite He in Hlen. discriminate Hlen.
  - intros digest Hsplit Hne.
    rewrite (Split_two_not_empty _ _ _ Hsplit), Hsplit.
    destruct (String.eqb_spec digest (digestOf (hasherOf c) k ""));
      [contradiction | reflexivity].
  - intros Hsplit e He.
    rewrite (Split_two_not_empty _ _ _ Hsplit), Hsplit, String.eqb_refl in He.
    destruct (Unserialize ser _ t) as [t1 [e1 |]].
    + destruct (Unserialize ser _ t1) as [t2 [e2 |]]; cbn [fst] in He.
      * injection He as <-. apply InvalidSignature_wrapped.
      * discriminate He.
    + discriminate He.
Qed.

Lemma Verify_split_gate_witness :
  let w' := {| crypt := Some (defaulted (sampleVerifier QuotedSerializer));
               target := ""; unserialized := [] |} in
  Verify "a--b--c" (sampleWorld QuotedSerializer)
  = (Returns (Some (invalid "bad data --")), w')
  /\ Verify "x--" (sampleWorld QuotedSerializer)
     = (Returns (Some (invalid "bad data (compare)")), w')
  /\ Verify "--x" (sampleWorld QuotedSerializer)
     = (Returns (Some (invalid "bad data (compare)")), w').
Proof.
  destruct (Verify_split_gate string (sampleVerifier QuotedSerializer)
              QuotedSerializer sampleSecret "" [] "a--b--c" eq_refl eq_refl)
    as (H1 & _).
  destruct (Verify_split_gate string (sampleVerifier QuotedSerializer)
              QuotedSerializer sampleSecret "" [] "x--" eq_refl eq_refl)
    as (_ & H2 & _).
  destruct (Verify_split_gate string (sampleVerifier QuotedSerializer)
              QuotedSerializer sampleSecret "" [] "--x" eq_refl eq_refl)
    as (_ & _ & _ & H3 & _).
  split; [| split].
  - destruct H1 as (e & He & _ & [-> | ->]).
    + intros data digest. vm_compute. discriminate.
    + discriminate He.
    + exact He.
  - apply (H2 "x"); [reflexivity | vm_compute; discriminate].
  - apply (H3 "x"); [reflexivity | vm_compute; discriminate].
Defined.

(** C4 as stated fails: the message below has an empty data half, the split
    yields two parts, the digest matches and [Verify] succeeds. *)
Lemma empty_data_half_accepted :
  let msg := "--92fb7f423592a43bf979495ccc46e3c84ee9d18a" in
  strings.Split_dashes msg = [""; "92fb7f423592a43bf979495ccc46e3c84ee9d18a"]
  /\ Verify msg (sampleWorld QuotedSerializer)
     = (Returns None,
        {| crypt := Some (defaulted (sampleVerifier QuotedSerializer));
           target := ""; unserialized := [(quote ++ quote)%string] |}).
Proof.
  cbv zeta. split; [reflexivity |]. unfold sampleWorld.
  rewrite (Verify_steps (sampleVerifier QuotedSerializer) "" []
             QuotedSerializer sampleSecret _ eq_refl eq_refl).
  cbv zeta.
  change (String.eqb "--92fb7f423592a43bf979495ccc46e3c84ee9d18a" "")
    with false.
  change (strings.Split_dashes "--92fb7f423592a43bf979495ccc46e3c84ee9d18a")
    with [""; "92fb7f423592a43bf979495ccc46e3c84ee9d18a"].
  cbv iota.
  replace (digestOf (hasherOf (sampleVerifier QuotedSerializer)) sampleSecret "")
    with "92fb7f423592a43bf979495ccc46e3c84ee9d18a"
    by (vm_compute; reflexivity).
  rewrite String.eqb_refl.
  change (base64.DecodeString_strict "") with (@nil byte, @None error).
  reflexivity.
Qed.

(** ** Where the code departs from the specification *)

(** C3 fails on the code.  The data half [!!!] is not base64: strict decoding
    reports an error and no bytes.  [Verify] drops that error, hands the
    quoted empty text to [Unserialize], and succeeds with the target
    overwritten. *)
Theorem Verify_swallows_decode_error :
  let msg := "!!!--a2eb812b99c3bb137c7274d90176d0ba1ef870cc" in
  let w := {| crypt := Some (sampleVerifier QuotedSerializer);
              target := "previous"; unserialized := [] |} in
  base64.DecodeString_strict "!!!" = ([], Some base64.CorruptInputError)
  /\ strings.Split_dashes msg
     = ["!!!"; "a2eb812b99c3bb137c7274d90176d0ba1ef870cc"]
  /\ Verify msg w
     = (Returns None,
        {| crypt := Some (defaulted (sampleVerifier QuotedSerializer));
           target := ""; unserialized := [(quote ++ quote)%string] |}).
Proof.
  cbv zeta. split; [reflexivity |]. split; [reflexivity |].
  rewrite (Verify_steps (sampleVerifier QuotedSerializer) "previous" []
             QuotedSerializer sampleSecret _ eq_refl eq_refl).
  cbv zeta.
  change (String.eqb "!!!--a2eb812b99c3bb137c7274d90176d0ba1ef870cc" "")
    with false.
  change (strings.Split_dashes "!!!--a2eb812b99c3bb137c7274d90176d0ba1ef870cc")
    with ["!!!"; "a2eb812b99c3bb137c7274d90176d0ba1ef870cc"].
  cbv iota.
  replace (digestOf (hasherOf (sampleVerifier QuotedSerializer)) sampleSecret
             "!!!")
    with "a2eb812b99c3bb137c7274d90176d0ba1ef870cc"
    by (vm_compute; reflexivity).
  rewrite String.eqb_refl.
  change (base64.DecodeString_strict "!!!")
    with (@nil byte, Some base64.CorruptInputError).
  reflexivity.
Qed.

(** The digest of a verifier whose Hasher is set. *)
Lemma DigestFor_hmac (V : Type) (c : MessageVerifier V) (t : V)
    (u : list string) (k : list byte) (h : Hash) (data : string) :
  Secret c = Some k -> Hasher c = Some h ->
  DigestFor data {| crypt := Some c; target := t; unserialized := u |}
  = (Returns (hex.EncodeToString (hmac.mac h k (bytes_of_string data))),
     {| crypt := Some c; target := t; unserialized := u |}).
Proof.
  intros Hk Hh. unfold DigestFor, deref, bind, receiver, ret. cbn [crypt].
  now rewrite Hk, Hh.
Qed.

Lemma DigestFor_sentinel (V : Type) (c : MessageVerifier V) (t : V)
    (u : list string) (data : string) :
  Secret c = None ->
  DigestFor data {| crypt := Some c; target := t; unserialized := u |}
  = (Returns sentinel, {| crypt := Some c; target := t; unserialized := u |}).
Proof.
  intros Hk. unfold DigestFor, deref, bind, receiver, ret. cbn [crypt].
  now rewrite Hk.
Qed.

Lemma digestOf_length (h : Hash) (k : list byte) (data : string) :
  String.length (digestOf h k data)
  = (2 * List.length (hmac.mac h k (bytes_of_string data)))%nat.
Proof. apply hex_length. Qed.

Lemma digestOf_not_sentinel (h : Hash) (k : list byte) (data : string) :
  digestOf h k data <> sentinel.
Proof.
  intros H. pose proof (hex_isLowerHex (hmac.mac h k (bytes_of_string data)))
    as Hhex.
  unfold digestOf in H. rewrite H in Hhex. discriminate Hhex.
Qed.

(** X12. With a Hasher in the struct, [DigestFor] returns the HMAC of the data
    under the Secret in lowercase hexadecimal, two characters per byte of the
    HMAC (40 for [sha1.New]); it changes nothing, so that a second call
    returns the same text. *)
Lemma DigestFor_configured_hash (V : Type) (c : MessageVerifier V) (t : V)
    (u : list string) (k : list byte) (h : Hash) (data : string) :
  Secret c = Some k -> Hasher c = Some h ->
  let w := {| crypt := Some c; target := t; unserialized := u |} in
  let digest := hex.EncodeToString (hmac.mac h k (bytes_of_string data)) in
  DigestFor data w = (Returns digest, w)
  /\ allChars isLowerHex digest = true
  /\ String.length digest
     = (2 * List.length (hmac.mac h k (bytes_of_string data)))%nat
  /\ (h = sha1.New -> String.length digest = 40%nat)
  /\ DigestFor data (snd (DigestFor data w)) = DigestFor data w.
Proof.
  intros Hk Hh w digest.
  assert (Hd : DigestFor data w = (Returns digest, w))
    by exact (DigestFor_hmac V c t u k h data Hk Hh).
  repeat split.
  - exact Hd.
  - apply hex_isLowerHex.
  - apply hex_length.
  - intros ->. unfold digest. rewrite hex_length, hmac_sha1_length.
    reflexivity.
  - now rewrite Hd.
Qed.

(** C6 fails on the code for a verifier with a Secret and no Hasher on which
    no validation ran yet: [DigestFor] applies no default and calls the nil
    Hasher.  After a validation the same call returns the 40 hexadecimal
    characters of the HMAC-SHA1. *)
Theorem DigestFor_without_Hasher_panics :
  let w := sampleWorld RawSerializer in
  Hasher (sampleVerifier RawSerializer) = None
  /\ DigestFor "hello" w = (Panics, w)
  /\ fst (DigestFor "hello" (snd (checkInit w)))
     = Returns "c5ca06e51461b99a0bdc1d51b602cd0ee82d25ef".
Proof.
  cbv zeta. split; [reflexivity |]. split; [reflexivity |].
  unfold sampleWorld.
  rewrite (checkInit_configured (sampleVerifier RawSerializer) "" [] eq_refl).
  cbn [snd].
  rewrite (DigestFor_validated (sampleVerifier RawSerializer) "" []
             sampleSecret "hello" eq_refl).
  cbn [fst]. apply f_equal. vm_compute. reflexivity.
Qed.

(** C8 fails on the code for [DigestFor]: the three operations that validate
    the configuration answer a nil receiver with the error and leave the
    world as it is, but [DigestFor] reads [crypt.Secret] and panics. *)
Theorem nil_receiver (V : Type) (t : V) (u : list string) (value : V)
    (msg data : string) :
  let w := {| crypt := None; target := t; unserialized := u |} in
  let e := errors_New "MessageVerifier not set" in
  IsValid w = (Returns (false, Some e), w)
  /\ Generate value w = (Returns ("", Some e), w)
  /\ Verify msg w = (Returns (Some e), w)
  /\ DigestFor data w = (Panics, w).
Proof. repeat split. Qed.

(** [DigestFor] on any struct. *)
Lemma DigestFor_cases (V : Type) (c : MessageVerifier V) (t : V)
    (u : list string) (data : string) :
  DigestFor data {| crypt := Some c; target := t; unserialized := u |}
  = (match Secret c, Hasher c with
     | None, _ => Returns sentinel
     | Some k, Some h => Returns (digestOf h k data)
     | Some _, None => Panics
     end,
     {| crypt := Some c; target := t; unserialized := u |}).
Proof.
  unfold DigestFor, deref, bind, receiver, ret, panic. cbn [crypt].
  destruct (Secret c); [destruct (Hasher c) |]; reflexivity.
Qed.

Lemma DigestFor_world (V : Type) (w : world V) (data : string) :
  snd (DigestFor data w) = w.
Proof.
  destruct w as [[c |] t u]; [| reflexivity].
  now rewrite DigestFor_cases.
Qed.

Example hmac_sha1_empty_key :
  digestOf sha1.New [] "" = "fbdb1d1b18aa6c08324b7d64b71fb76370690e1d".
Proof. vm_compute. reflexivity. Qed.

(** ** An empty Secret *)

Lemma Verify_no_config_error (V : Type) (c : MessageVerifier V)
    (ser : MsgSerializer V) (k : list byte) (t : V) (u : list string)
    (msg : string) (e : error) :
  Serializer c = Some ser -> Secret c = Some k ->
  fst (Verify msg {| crypt := Some c; target := t; unserialized := u |})
  = Returns (Some e) ->
  isConfigError e = false.
Proof.
  intros Hser Hk. rewrite (Verify_steps c t u ser k msg Hser Hk). cbv zeta.
  destruct (String.eqb msg "").
  { cbn [fst]. intros H. injection H as <-. reflexivity. }
  destruct (strings.Split_dashes msg) as [| data [| digest [| x l]]];
    try (cbn [fst]; intros H; injection H as <-; reflexivity).
  destruct (String.eqb digest _).
  2: { cbn [fst]. intros H. injection H as <-. reflexivity. }
  destruct (Unserialize ser _ t) as [t1 [e1 |]]; [| discriminate].
  destruct (Unserialize ser _ t1) as [t2 [e2 |]]; [| discriminate].
  cbn [fst]. intros H. injection H as <-. reflexivity.
Qed.

(** C9. A Secret that is present and empty passes the configuration
    validation.  [Generate] signs with it.  [Verify] goes on to its steps on
    the message exactly as with any other Secret, with the digests keyed by
    the empty byte string: it rejects the empty message, a message that does
    not split in two and a digest that does not match, hands the decoded data
    to [Unserialize] otherwise, and accepts what [Generate] signed; it returns
    no configuration error.  [DigestFor] returns the hexadecimal HMAC keyed
    with the empty byte string, which is not the sentinel.  On any struct
    [DigestFor] returns the sentinel exactly when the Secret is nil. *)
Theorem empty_Secret_is_configured (V : Type) (c : MessageVerifier V)
    (ser : MsgSerializer V) (t : V) (u : list string) (v : V)
    (msg data : string) :
  Serializer c = Some ser -> Secret c = Some [] ->
  let w := {| crypt := Some c; target := t; unserialized := u |} in
  let w' := {| crypt := Some (defaulted c); target := t; unserialized := u |} in
  let digest := hex.EncodeToString
                  (hmac.mac (hasherOf c) [] (bytes_of_string data)) in
  let after t' u' :=
    {| crypt := Some (defaulted c); target := t'; unserialized := u' |} in
  checkInit w = (Returns None, w')
  /\ IsValid w = (Returns (true, None), w')
  /\ Generate v w
     = (Returns match Serialize ser v with
                | (_, Some e) => ("", Some e)
                | (d, None) =>
                    let str := base64.EncodeToString (bytes_of_string d) in
                    ((str ++ "--" ++ hex.EncodeToString
                        (hmac.mac (hasherOf c) [] (bytes_of_string str)))%string,
                     None)
                end, w')
  /\ Verify msg w
     = (if String.eqb msg ""
        then (Returns (Some (invalid "empty message")), w')
        else
          match strings.Split_dashes msg with
          | [half; sig] =>
              if String.eqb sig
                   (hex.EncodeToString
                      (hmac.mac (hasherOf c) [] (bytes_of_string half)))
              then
                let decoded :=
                  string_of_bytes (fst (base64.DecodeString_strict half)) in
                let quoted := (quote ++ decoded ++ quote)%string in
                match Unserialize ser quoted t with
                | (t1, None) => (Returns None, after t1 (u ++ [quoted]))
                | (t1, Some _) =>
                    match Unserialize ser decoded t1 with
                    | (t2, None) =>
                        (Returns None, after t2 (u ++ [quoted; decoded]))
                    | (t2, Some e) =>
                        (Returns (Some (wrapError
                           ("failed to unserialize both quoted and raw data: "
                              ++ Error e)%string e)),
                         after t2 (u ++ [quoted; decoded]))
                    end
                end
              else (Returns (Some (invalid "bad data (compare)")), w')
          | _ => (Returns (Some (invalid "bad data --")), w')
          end)
  /\ (forall d : string,
        let str := base64.EncodeToString (bytes_of_string d) in
        let quoted := (quote ++ d ++ quote)%string in
        Verify (str ++ "--" ++ hex.EncodeToString
                  (hmac.mac (hasherOf c) [] (bytes_of_string str))) w
        = match Unserialize ser quoted t with
          | (t1, None) => (Returns None, after t1 (u ++ [quoted]))
          | (t1, Some _) =>
              match Unserialize ser d t1 with
              | (t2, None) => (Returns None, after t2 (u ++ [quoted; d]))
              | (t2, Some e) =>
                  (Returns (Some (wrapError
                     ("failed to unserialize both quoted and raw data: "
                        ++ Error e)%string e)),
                   after t2 (u ++ [quoted; d]))
              end
          end)
  /\ (forall e, fst (Verify msg w) = Returns (Some e) -> isConfigError e = false)
  /\ DigestFor data w' = (Returns digest, w')
  /\ digest <> sentinel
  /\ (forall c0 : MessageVerifier V,
        fst (DigestFor data {| crypt := Some c0; target := t;
                               unserialized := u |}) = Returns sentinel
        <-> Secret c0 = None).
Proof.
  intros Hser Hk w w' digest after.
  assert (Hc : configured c = true)
    by (unfold configured; now rewrite Hser, Hk).
  split; [| split; [| split; [| split; [| split; [| split; [| split;
    [| split]]]]]]].
  - apply checkInit_configured. exact Hc.
  - unfold w. rewrite IsValid_result. cbn [crypt target unserialized option_map].
    unfold configError, validated. rewrite Hser, Hk. reflexivity.
  - apply (Generate_steps c t u ser [] v Hser Hk).
  - apply (Verify_steps c t u ser [] msg Hser Hk).
  - intros d. apply (Verify_generated c t u ser [] d Hser Hk).
  - intros e He. exact (Verify_no_config_error V c ser [] t u msg e Hser Hk He).
  - apply (DigestFor_validated c t u [] data Hk).
  - apply digestOf_not_sentinel.
  - intros c0. rewrite DigestFor_cases. cbn [fst]. split.
    + destruct (Secret c0) as [k0 |]; [| reflexivity].
      destruct (Hasher c0) as [h0 |]; [| discriminate].
      intros H. injection H as H. now apply digestOf_not_sentinel in H.
    + intros H0. rewrite H0. reflexivity.
Qed.

Lemma empty_Secret_is_configured_witness :
  let w := {| crypt := Some (emptySecretVerifier RawSerializer);
              target := ""; unserialized := [] |} in
  let w' := {| crypt := Some (defaulted (emptySecretVerifier RawSerializer));
               target := ""; unserialized := [] |} in
  checkInit w = (Returns None, w')
  /\ DigestFor "" w' = (Returns "fbdb1d1b18aa6c08324b7d64b71fb76370690e1d", w')
  /\ Verify "--fbdb1d1b18aa6c08324b7d64b71fb76370690e1d" w
     = (Returns None,
        {| crypt := Some (defaulted (emptySecretVerifier RawSerializer));
           target := (quote ++ quote)%string;
           unserialized := [(quote ++ quote)%string] |})
  /\ Verify "x--y" w = (Returns (Some (invalid "bad data (compare)")), w').
Proof.
  cbv zeta.
  destruct (empty_Secret_is_configured string
              (emptySecretVerifier RawSerializer) RawSerializer "" [] "hello"
              "x--y" "" eq_refl eq_refl)
    as (H1 & _ & _ & H4 & H5 & _ & H7 & _).
  split; [exact H1 |]. split; [| split].
  - rewrite H7. apply f_equal2; [| reflexivity].
    apply f_equal. vm_compute. reflexivity.
  - assert (Hs : "--fbdb1d1b18aa6c08324b7d64b71fb76370690e1d"
                 = (base64.EncodeToString (bytes_of_string "") ++ "--"
                    ++ hex.EncodeToString
                         (hmac.mac (hasherOf (emptySecretVerifier RawSerializer))
                            []
                            (bytes_of_string
                               (base64.EncodeToString (bytes_of_string "")))))%string)
      by (vm_compute; reflexivity).
    rewrite Hs. rewrite (H5 ""). reflexivity.
  - rewrite H4.
    change (String.eqb "x--y" "") with false.
    change (strings.Split_dashes "x--y") with ["x"; "y"]. cbv iota.
    assert (Hd : String.eqb "y"
                   (hex.EncodeToString
                      (hmac.mac (hasherOf (emptySecretVerifier RawSerializer))
                         [] (bytes_of_string "x"))) = false)
      by (vm_compute; reflexivity).
    rewrite Hd. reflexivity.
Defined.

(** ** The fields of the struct *)

Section Frame.

Context {V : Type}.
Implicit Types (c : MessageVerifier V) (w : world V).

Lemma fieldsKept_refl (x : option (MessageVerifier V)) : fieldsKept x x.
Proof. destruct x as [c |]; cbn; auto 6. Qed.

Lemma fieldsKept_validated c : fieldsKept (Some c) (Some (validated c)).
Proof.
  unfold validated. destruct (Serializer c) eqn:Hs; [| apply fieldsKept_refl].
  unfold defaulted. destruct (Hasher c) eqn:Hh; [apply fieldsKept_refl |].
  cbn. rewrite Hh. repeat split; auto. congruence.
Qed.

Lemma fieldsKept_validation (x : option (MessageVerifier V)) :
  fieldsKept x (option_map validated x).
Proof.
  destruct x as [c |]; [apply fieldsKept_validated | exact I].
Qed.

Lemma fieldsKept_trans (x y z : option (MessageVerifier V)) :
  fieldsKept x y -> fieldsKept y z -> fieldsKept x z.
Proof.
  destruct x as [a |], y as [b |], z as [c |]; cbn; try tauto.
  intros (Hs1 & Hr1 & Hh1 & Hk1) (Hs2 & Hr2 & Hh2 & Hk2).
  repeat split; try congruence.
  - destruct Hh1 as [H1 | [H1 H1']], Hh2 as [H2 | [H2 H2']];
      try (left; congruence); try (right; split; congruence).
  - intros Ha. rewrite <- (Hk1 Ha). apply Hk2.
    rewrite (Hk1 Ha). exact Ha.
Qed.

Lemma Generate_crypt w v :
  crypt (snd (Generate v w)) = option_map validated (crypt w).
Proof.
  destruct (configError (crypt w)) as [e |] eqn:He.
  - now rewrite (Generate_config_error w v e He).
  - apply configError_None in He as (c & ser & k & Hc & Hser & Hk).
    destruct w as [x t u]. cbn [crypt] in *. subst x.
    rewrite (Generate_steps c t u ser k v Hser Hk).
    cbn [snd crypt option_map]. unfold validated. now rewrite Hser.
Qed.

Lemma Verify_crypt w msg :
  crypt (snd (Verify msg w)) = option_map validated (crypt w).
Proof.
  destruct (configError (crypt w)) as [e |] eqn:He.
  - now rewrite (Verify_config_error w msg e He).
  - apply configError_None in He as (c & ser & k & Hc & Hser & Hk).
    destruct w as [x t u]. cbn [crypt] in *. subst x.
    rewrite (Verify_steps c t u ser k msg Hser Hk). cbv zeta.
    cbn [option_map]. unfold validated. rewrite Hser.
    destruct (String.eqb msg ""); [reflexivity |].
    destruct (strings.Split_dashes msg) as [| data [| digest [| x l]]];
      try reflexivity.
    destruct (String.eqb digest _); [| reflexivity].
    destruct (Unserialize ser _ t) as [t1 [e1 |]]; [| reflexivity].
    destruct (Unserialize ser _ t1) as [t2 [e2 |]]; reflexivity.
Qed.

Lemma after_fieldsKept (o : operation V) w :
  fieldsKept (crypt w) (crypt (after o w)).
Proof.
  destruct o as [| v | msg | data]; cbn [after].
  - rewrite IsValid_result. apply fieldsKept_validation.
  - rewrite Generate_crypt. apply fieldsKept_validation.
  - rewrite Verify_crypt. apply fieldsKept_validation.
  - rewrite DigestFor_world. apply fieldsKept_refl.
Qed.

End Frame.

(** C10. Whatever public operations are called, in whatever order, the
    Secret and the Serializer of the struct are those it started with; its
    Hasher is the one it started with or, if that was nil, possibly
    [sha1.New]; and a struct that has a Hasher is left as it is by every
    call. *)
Theorem fields_are_kept (V : Type) (os : list (operation V)) (w : world V) :
  fieldsKept (crypt w) (crypt (afterAll os w)).
Proof.
  revert w. induction os as [| o os IH]; intros w.
  - apply fieldsKept_refl.
  - cbn [afterAll fold_left]. eapply fieldsKept_trans.
    + apply (after_fieldsKept o w).
    + apply IH.
Qed.

(** * Further properties of the verifier *)

(** ** Splitting and joining *)

Lemma SplitFrom_nonempty (s : string) :
  forall cur, strings.SplitFrom cur s <> [].
Proof.
  induction s as [| c s IH]; intros cur; [discriminate |].
  cbn [strings.SplitFrom]. destruct s as [| c' s']; [apply IH |].
  destruct (Ascii.eqb c "-" && Ascii.eqb c' "-"); [discriminate | apply IH].
Qed.

Lemma joinDashes_cons (x : string) (rest : list string) :
  rest <> [] -> joinDashes (x :: rest) = (x ++ "--" ++ joinDashes rest)%string.
Proof. destruct rest; [congruence | reflexivity]. Qed.

(** Joining the parts of a text with the separator gives the text back. *)
Lemma SplitFrom_join (n : nat) :
  forall s cur, (String.length s <= n)%nat ->
  joinDashes (strings.SplitFrom cur s) = (cur ++ s)%string.
Proof.
  induction n as [| n IH]; intros [| c s] cur Hn; cbn [String.length] in Hn;
    try lia; try (cbn; now rewrite append_empty_r).
  cbn [strings.SplitFrom]. destruct s as [| c' s'].
  - reflexivity.
  - destruct (Ascii.eqb_spec c "-") as [-> | Hc]; cbn [andb].
    + destruct (Ascii.eqb_spec c' "-") as [-> | Hc'].
      * rewrite joinDashes_cons by apply SplitFrom_nonempty.
        rewrite (IH s' "") by (cbn [String.length] in Hn; lia). reflexivity.
      * rewrite (IH (String c' s')) by lia. apply append_assoc_char.
    + rewrite (IH (String c' s')) by lia. apply append_assoc_char.
Qed.

Lemma Split_join (s : string) : joinDashes (strings.Split_dashes s) = s.
Proof. apply (SplitFrom_join (String.length s)). lia. Qed.

Lemma Split_two_join (msg data digest : string) :
  strings.Split_dashes msg = [data; digest] ->
  msg = (data ++ "--" ++ digest)%string.
Proof. intros H. rewrite <- (Split_join msg), H. reflexivity. Qed.

Lemma notDash_app_dash (p q : string) :
  allChars notDash (p ++ String "-" q) = false.
Proof.
  unfold allChars. induction p as [| c p IH]; [reflexivity |].
  change (forallb notDash (bytes_of_string (String c p ++ String "-" q)))
    with (notDash c
          && forallb notDash (bytes_of_string (p ++ String "-" q))).
  rewrite IH. apply andb_false_r.
Qed.

(** Two texts that end in the separator and a text without dashes are equal
    only if their parts are. *)
Lemma signed_cancel (a : string) :
  forall x b d,
  allChars notDash b = true -> allChars notDash d = true ->
  (a ++ "--" ++ b)%string = (x ++ "--" ++ d)%string -> a = x /\ b = d.
Proof.
  induction a as [| c a IH]; intros [| c2 x] b d Hb Hd H.
  - cbn in H. injection H as ->. auto.
  - cbn in H. injection H as <- H. destruct x as [| c3 x]; cbn in H.
    + injection H as ->. discriminate Hb.
    + injection H as <- ->.
      now rewrite (notDash_app_dash x (String "-" d)) in Hb.
  - cbn in H. injection H as -> H. destruct a as [| c3 a]; cbn in H.
    + injection H as <-. discriminate Hd.
    + injection H as -> <-.
      now rewrite (notDash_app_dash a (String "-" b)) in Hd.
  - cbn in H. injection H as -> H.
    destruct (IH x b d Hb Hd H) as [-> ->]. auto.
Qed.

Lemma digestOf_no_dash (h : Hash) (k : list byte) (data : string) :
  allChars notDash (digestOf h k data) = true.
Proof. apply hex_no_dash. Qed.

(** ** What [Verify] accepts *)

Section Accepts.

Context {V : Type}.
Implicit Types (c : MessageVerifier V) (t : V) (u : list string) (w : world V).

(** On a configured verifier a message is rejected with an InvalidSignature
    error, the world left as validated, unless it is a text followed by the
    separator and the digest of that text. *)
Lemma Verify_rejects_or_signed c t u ser k msg :
  Serializer c = Some ser -> Secret c = Some k ->
  (exists e,
     Verify msg {| crypt := Some c; target := t; unserialized := u |}
     = (Returns (Some e),
        {| crypt := Some (defaulted c); target := t; unserialized := u |})
     /\ InvalidSignature e = true)
  \/ (exists data,
        strings.Split_dashes msg = [data; digestOf (hasherOf c) k data]
        /\ msg = (data ++ "--" ++ digestOf (hasherOf c) k data)%string).
Proof.
  intros Hser Hk. rewrite (Verify_steps c t u ser k msg Hser Hk). cbv zeta.
  destruct (String.eqb msg ""); [left; eexists; split; reflexivity |].
  destruct (strings.Split_dashes msg) as [| data [| digest [| x l]]] eqn:Hs;
    try (left; eexists; split; reflexivity).
  destruct (String.eqb_spec digest (digestOf (hasherOf c) k data)) as [-> |];
    [| left; eexists; split; reflexivity].
  right. exists data. split; [reflexivity |]. now apply Split_two_join.
Qed.

End Accepts.

(** X1. Whatever the struct and the message, [Verify] either returns an
    error and leaves the target and the list of [Unserialize] invocations as
    they were, or the struct has a Secret and a Serializer and the message is
    a text, the separator and the digest of that text under the Secret: no
    other message reaches the Serializer. *)
Theorem Verify_touches_only_signed (V : Type) (w : world V) (msg : string) :
  (target (snd (Verify msg w)) = target w
   /\ unserialized (snd (Verify msg w)) = unserialized w
   /\ exists e, fst (Verify msg w) = Returns (Some e))
  \/ (exists c k data,
        crypt w = Some c /\ Secret c = Some k /\ Serializer c <> None
        /\ msg = (data ++ "--" ++ digestOf (hasherOf c) k data)%string).
Proof.
  destruct (configError (crypt w)) as [e |] eqn:He.
  - left. rewrite (Verify_config_error w msg e He). cbn. eauto.
  - apply configError_None in He as (c & ser & k & Hc & Hser & Hk).
    destruct w as [x t u]. cbn [crypt] in Hc. subst x.
    destruct (Verify_rejects_or_signed c t u ser k msg Hser Hk)
      as [(e & HV & _) | (data & _ & Hmsg)].
    + left. rewrite HV. cbn. eauto.
    + right. exists c, k, data. cbn [crypt]. repeat split; auto.
      congruence.
Qed.

(** X2. [Verify] returns nil only for a message made of a text, the
    separator and the digest of that text under the Secret of the struct, and
    only after [Unserialize] returned nil: on the quoted form of what strict
    decoding makes of the text, or, that attempt having failed, on the decoded
    text itself; the target is then what that call left in it. *)
Theorem Verify_success_authentic (V : Type) (w : world V) (msg : string) :
  fst (Verify msg w) = Returns None ->
  exists c ser k data,
    crypt w = Some c /\ Serializer c = Some ser /\ Secret c = Some k
    /\ msg = (data ++ "--" ++ digestOf (hasherOf c) k data)%string
    /\ let decoded :=
         string_of_bytes (fst (base64.DecodeString_strict data)) in
       let quoted := (quote ++ decoded ++ quote)%string in
       let t' := target (snd (Verify msg w)) in
       Unserialize ser quoted (target w) = (t', None)
       \/ (exists t1 e1,
             Unserialize ser quoted (target w) = (t1, Some e1)
             /\ Unserialize ser decoded t1 = (t', None)).
Proof.
  intros Hok.
  destruct (configError (crypt w)) as [e |] eqn:He.
  { rewrite (Verify_config_error w msg e He) in Hok. discriminate Hok. }
  apply configError_None in He as (c & ser & k & Hc & Hser & Hk).
  destruct w as [x t u]. cbn [crypt] in Hc. subst x.
  exists c, ser, k.
  destruct (Verify_rejects_or_signed c t u ser k msg Hser Hk)
    as [(e & HV & _) | (data & Hsplit & Hmsg)].
  { rewrite HV in Hok. discriminate Hok. }
  exists data. repeat split; auto. cbv zeta. cbn [target].
  revert Hok. rewrite (Verify_steps c t u ser k msg Hser Hk). cbv zeta.
  rewrite (Split_two_not_empty _ _ _ Hsplit), Hsplit, String.eqb_refl.
  destruct (Unserialize ser _ t) as [t1 [e1 |]] eqn:H1.
  - destruct (Unserialize ser _ t1) as [t2 [e2 |]] eqn:H2;
      cbn [fst snd target]; intros Hok; [discriminate Hok |].
    right. exists t1, e1. split; [reflexivity | exact H2].
  - cbn [fst snd target]. intros _. left. reflexivity.
Qed.

Lemma Verify_success_authentic_witness :
  exists data,
    "aGVsbG8=--9323e3d308a566952d5cbd1e3eacf11e07f4c649"
    = (data ++ "--" ++ digestOf sha1.New sampleSecret data)%string.
Proof.
  assert (Hs : "aGVsbG8=--9323e3d308a566952d5cbd1e3eacf11e07f4c649"
               = (base64.EncodeToString (bytes_of_string "hello") ++ "--"
                  ++ digestOf (hasherOf (sampleVerifier RawSerializer))
                       sampleSecret
                       (base64.EncodeToString (bytes_of_string "hello")))%string)
    by (vm_compute; reflexivity).
  assert (Hok : fst (Verify "aGVsbG8=--9323e3d308a566952d5cbd1e3eacf11e07f4c649"
                       (sampleWorld RawSerializer)) = Returns None).
  { rewrite Hs. unfold sampleWorld.
    rewrite (Verify_generated (sampleVerifier RawSerializer) "" []
               RawSerializer sampleSecret "hello" eq_refl eq_refl).
    reflexivity. }
  destruct (Verify_success_authentic string (sampleWorld RawSerializer) _ Hok)
    as (c & ser & k & data & Hc & _ & Hk & Hmsg & _).
  exists data. injection Hc as <-. injection Hk as <-. exact Hmsg.
Defined.

(** ** Errors and panics *)

(** X3. [Generate] returns the empty text exactly when it returns an error,
    and an error of [Generate] is the error of the validation or, unchanged,
    the error [Serialize] returned for the value.  In every case the target
    and the list of [Unserialize] invocations are as before the call. *)
Theorem Generate_error_iff_empty (V : Type) (w : world V) (v : V) :
  exists s err,
    Generate v w
    = (Returns (s, err),
       {| crypt := option_map validated (crypt w); target := target w;
          unserialized := unserialized w |})
    /\ (s = "" <-> err <> None)
    /\ (forall e, err = Some e ->
        configError (crypt w) = Some e
        \/ exists c ser d,
             crypt w = Some c /\ Serializer c = Some ser
             /\ Serialize ser v = (d, Some e)).
Proof.
  destruct (configError (crypt w)) as [e |] eqn:He.
  - exists "", (Some e). rewrite (Generate_config_error w v e He).
    repeat split; try congruence. intros e0 H0. left. exact H0.
  - apply configError_None in He as (c & ser & k & Hc & Hser & Hk).
    destruct w as [x t u]. cbn [crypt] in Hc. subst x.
    rewrite (Generate_steps c t u ser k v Hser Hk).
    cbn [crypt target unserialized option_map]. unfold validated.
    rewrite Hser. destruct (Serialize ser v) as [d [e |]] eqn:Hd.
    + exists "", (Some e). repeat split; try congruence.
      intros e0 H0. right. exists c, ser, d. injection H0 as <-. auto.
    + eexists _, None. split; [reflexivity |]. split.
      * split; [| congruence]. cbv zeta. intros H.
        pose proof (signed_not_empty
                      (base64.EncodeToString (bytes_of_string d))
                      (digestOf (hasherOf c) k
                         (base64.EncodeToString (bytes_of_string d)))) as Hne.
        rewrite H in Hne. discriminate Hne.
      * discriminate.
Qed.

(** X4. [IsValid], [Generate] and [Verify] never panic, whatever the
    receiver, the fields of the struct and the arguments are: the nil
    receiver, the nil Serializer and the nil Hasher are all met by the
    validation before anything is called on them. *)
Theorem validated_operations_never_panic (V : Type) (w : world V) (v : V)
    (msg : string) :
  fst (IsValid w) <> Panics
  /\ fst (Generate v w) <> Panics
  /\ fst (Verify msg w) <> Panics.
Proof.
  split; [| split].
  - rewrite IsValid_result. discriminate.
  - destruct (configError (crypt w)) as [e |] eqn:He.
    + rewrite (Generate_config_error w v e He). discriminate.
    + apply configError_None in He as (c & ser & k & Hc & Hser & Hk).
      destruct w as [x t u]. cbn [crypt] in Hc. subst x.
      rewrite (Generate_steps c t u ser k v Hser Hk). discriminate.
  - destruct (configError (crypt w)) as [e |] eqn:He.
    + rewrite (Verify_config_error w msg e He). discriminate.
    + apply configError_None in He as (c & ser & k & Hc & Hs & Hk).
      destruct w as [x t u]. cbn [crypt] in Hc. subst x.
      rewrite (Verify_steps c t u ser k msg Hs Hk). cbv zeta.
      destruct (String.eqb msg ""); [discriminate |].
      destruct (strings.Split_dashes msg) as [| a [| b [| x l]]];
        try discriminate.
      destruct (String.eqb b _); [| discriminate].
      destruct (Unserialize ser _ t) as [t1 [e1 |]]; [| discriminate].
      destruct (Unserialize ser _ t1) as [t2 [e2 |]]; discriminate.
Qed.

Lemma isUnserializeFailure_wrapped (e : error) :
  isUnserializeFailure
    (wrapError ("failed to unserialize both quoted and raw data: "
                  ++ Error e)%string e) = true.
Proof.
  unfold isUnserializeFailure. cbn. destruct (Error e); reflexivity.
Qed.

Lemma configError_classes (V : Type) (x : option (MessageVerifier V))
    (e : error) :
  configError x = Some e ->
  isConfigError e = true /\ InvalidSignature e = false
  /\ isUnserializeFailure e = false.
Proof.
  unfold configError. intros H.
  destruct x as [c |];
    [destruct (Serializer c); [destruct (Secret c); [discriminate H |] |] |];
    injection H as <-; repeat split.
Qed.

(** X5. The errors of [Verify] fall into three classes that exclude one
    another.  A configuration error is the one the validation reports.  An
    InvalidSignature error is "empty message" for the empty message, "bad
    data --" for a message that does not split in two, "bad data (compare)"
    for a digest half that is not the digest of the data half; with it as
    with a configuration error the target and the list of [Unserialize]
    invocations are as before the call.  The third class arises only after
    two invocations of [Unserialize] that both returned an error, on the
    quoted decoded data and then on the decoded data: the error wraps the
    error of the second invocation, its message is the fixed prefix followed
    by the message of that error, and the error of the first invocation is
    dropped. *)
Theorem Verify_error_classes (V : Type) (w : world V) (msg : string)
    (e : error) :
  fst (Verify msg w) = Returns (Some e) ->
  let w' := snd (Verify msg w) in
  (configError (crypt w) = Some e
   /\ isConfigError e = true /\ InvalidSignature e = false
   /\ isUnserializeFailure e = false
   /\ target w' = target w /\ unserialized w' = unserialized w)
  \/ (configError (crypt w) = None
      /\ isConfigError e = false /\ InvalidSignature e = true
      /\ isUnserializeFailure e = false
      /\ target w' = target w /\ unserialized w' = unserialized w
      /\ ((msg = "" /\ e = invalid "empty message")
          \/ (msg <> ""
              /\ (forall data digest,
                    strings.Split_dashes msg <> [data; digest])
              /\ e = invalid "bad data --")
          \/ (exists c k data digest,
                crypt w = Some c /\ Secret c = Some k
                /\ strings.Split_dashes msg = [data; digest]
                /\ digest <> digestOf (hasherOf c) k data
                /\ e = invalid "bad data (compare)")))
  \/ (configError (crypt w) = None
      /\ isConfigError e = false /\ InvalidSignature e = false
      /\ isUnserializeFailure e = true
      /\ exists c ser k data t1 e1 inner,
           crypt w = Some c /\ Serializer c = Some ser /\ Secret c = Some k
           /\ msg = (data ++ "--" ++ digestOf (hasherOf c) k data)%string
           /\ let decoded :=
                string_of_bytes (fst (base64.DecodeString_strict data)) in
              let quoted := (quote ++ decoded ++ quote)%string in
              Unserialize ser quoted (target w) = (t1, Some e1)
              /\ Unserialize ser decoded t1 = (target w', Some inner)
              /\ e = wrapError
                       ("failed to unserialize both quoted and raw data: "
                          ++ Error inner)%string inner
              /\ Unwrap e = Some inner
              /\ Error e = ("failed to unserialize both quoted and raw data: "
                              ++ Error inner)%string
              /\ unserialized w' = unserialized w ++ [quoted; decoded]).
Proof.
  intros He. cbv zeta.
  destruct (configError (crypt w)) as [e0 |] eqn:Hcfg.
  - left. rewrite (Verify_config_error w msg e0 Hcfg) in *.
    cbn [fst snd target unserialized] in *. injection He as <-.
    destruct (configError_classes V _ e0 Hcfg) as (H1 & H2 & H3).
    repeat split; assumption.
  - right. apply configError_None in Hcfg as (c & ser & k & Hc & Hser & Hk).
    destruct w as [x t u]. cbn [crypt] in Hc. subst x.
    revert He. rewrite (Verify_steps c t u ser k msg Hser Hk). cbv zeta.
    cbn [target unserialized crypt].
    destruct (String.eqb_spec msg "") as [Hm | Hm].
    { cbn [fst snd]. intros H. injection H as <-. left.
      do 6 (split; [reflexivity |]). left. split; [exact Hm | reflexivity]. }
    destruct (strings.Split_dashes msg) as [| a [| b [| x l]]] eqn:Hs;
      try (cbn [fst snd]; intros H; injection H as <-; left;
           do 6 (split; [reflexivity |]); right; left;
           split; [exact Hm |]; split; [intros; discriminate | reflexivity]).
    destruct (String.eqb_spec b (digestOf (hasherOf c) k a)) as [Hb | Hb].
    2: { cbn [fst snd]. intros H. injection H as <-. left.
         do 6 (split; [reflexivity |]). right. right.
         exists c, k, a, b. repeat split; auto. }
    destruct (Unserialize ser _ t) as [t1 [e1 |]] eqn:H1; [| discriminate].
    destruct (Unserialize ser _ t1) as [t2 [e2 |]] eqn:H2; [| discriminate].
    cbn [fst snd target unserialized]. intros H. injection H as <-.
    right. do 3 (split; [reflexivity |]).
    split; [apply isUnserializeFailure_wrapped |].
    exists c, ser, k, a, t1, e1, e2.
    split; [reflexivity |]. split; [exact Hser |]. split; [exact Hk |].
    split; [subst b; now apply Split_two_join |].
    split; [exact H1 |]. split; [exact H2 |]. repeat split.
Qed.

Lemma Verify_error_classes_witness :
  InvalidSignature (invalid "bad data (compare)") = true
  /\ isConfigError (invalid "bad data (compare)") = false
  /\ target (snd (Verify "x--y" (sampleWorld QuotedSerializer))) = "".
Proof.
  assert (He : fst (Verify "x--y" (sampleWorld QuotedSerializer))
               = Returns (Some (invalid "bad data (compare)"))).
  { unfold sampleWorld.
    rewrite (Verify_steps (sampleVerifier QuotedSerializer) "" []
               QuotedSerializer sampleSecret "x--y" eq_refl eq_refl).
    cbv zeta. change (String.eqb "x--y" "") with false.
    change (strings.Split_dashes "x--y") with ["x"; "y"]. cbv iota.
    assert (Hd : String.eqb "y"
                   (digestOf (hasherOf (sampleVerifier QuotedSerializer))
                      sampleSecret "x") = false) by (vm_compute; reflexivity).
    rewrite Hd. reflexivity. }
  destruct (Verify_error_classes string (sampleWorld QuotedSerializer)
              "x--y" _ He)
    as [(Hc & _) | [(_ & H1 & H2 & _ & H3 & _) | (_ & _ & H2 & _)]].
  - discriminate Hc.
  - split; [exact H2 | split; [exact H1 | exact H3]].
  - discriminate H2.
Defined.

(** ** Validation first *)

Lemma validated_idempotent (V : Type) (c : MessageVerifier V) :
  validated (validated c) = validated c.
Proof.
  destruct (Serializer c) as [ser |] eqn:Hs.
  - assert (H : validated c = defaulted c)
      by (unfold validated; now rewrite Hs).
    rewrite H. unfold validated. rewrite Serializer_defaulted, Hs.
    apply defaulted_idempotent.
  - assert (H : validated c = c) by (unfold validated; now rewrite Hs).
    now rewrite !H.
Qed.

Lemma configError_validated (V : Type) (x : option (MessageVerifier V)) :
  configError (option_map validated x) = configError x.
Proof.
  destruct x as [c |]; [| reflexivity]. cbn [option_map configError].
  unfold validated. destruct (Serializer c) eqn:Hs.
  - now rewrite Serializer_defaulted, Secret_defaulted, Hs.
  - now rewrite Hs.
Qed.

(** X6. The validation tests the receiver, then the Serializer, then the
    Secret: a struct without Serializer is reported as such whatever its
    Secret is, and is left as it is; a struct with a Serializer and without
    Secret is reported for its Secret, and by then its Hasher has been
    defaulted: the failed validation leaves a struct with a Hasher. *)
Theorem IsValid_order (V : Type) (c : MessageVerifier V) (t : V)
    (u : list string) :
  let w := {| crypt := Some c; target := t; unserialized := u |} in
  let w' := {| crypt := Some (defaulted c); target := t; unserialized := u |} in
  (Serializer c = None ->
   IsValid w = (Returns (false, Some (errors_New "Serializer not set")), w))
  /\ (Serializer c <> None -> Secret c = None ->
      IsValid w = (Returns (false, Some (errors_New "Secret not set")), w')
      /\ Hasher (defaulted c) <> None)
  /\ (Serializer c <> None -> Secret c <> None ->
      IsValid w = (Returns (true, None), w')).
Proof.
  cbv zeta. rewrite IsValid_result.
  cbn [crypt target unserialized option_map configError]. unfold validated.
  split; [| split].
  - intros Hs. now rewrite Hs.
  - intros Hs Hk. split; [| rewrite Hasher_defaulted; discriminate].
    destruct (Serializer c); [| congruence]. now rewrite Hk.
  - intros Hs Hk. destruct (Serializer c); [| congruence].
    destruct (Secret c); [reflexivity | congruence].
Qed.

Lemma IsValid_order_witness :
  IsValid {| crypt := Some (noSecretVerifier RawSerializer); target := "";
             unserialized := [] |}
  = (Returns (false, Some (errors_New "Secret not set")),
     {| crypt := Some {| Secret := None; Hasher := Some sha1.New;
                         Serializer := Some RawSerializer |};
        target := ""; unserialized := [] |}).
Proof.
  destruct (IsValid_order string (noSecretVerifier RawSerializer) "" [])
    as (_ & H & _).
  destruct H as [H _]; [discriminate | reflexivity | exact H].
Defined.

(** X7. A call of [IsValid] before [Generate], [Verify] or another
    [IsValid] changes nothing to what these return nor to the world they
    leave: the validation they run themselves finds the struct as the first
    one left it. *)
Theorem IsValid_first_changes_nothing (V : Type) (w : world V) (v : V)
    (msg : string) :
  IsValid (snd (IsValid w)) = IsValid w
  /\ Generate v (snd (IsValid w)) = Generate v w
  /\ Verify msg (snd (IsValid w)) = Verify msg w.
Proof.
  rewrite (IsValid_result w). cbn [snd].
  set (w1 := {| crypt := option_map validated (crypt w); target := target w;
                unserialized := unserialized w |}).
  assert (Hcfg : configError (crypt w1) = configError (crypt w))
    by apply configError_validated.
  assert (Hval : option_map validated (crypt w1) = crypt w1).
  { unfold w1. cbn [crypt]. destruct (crypt w) as [c |]; [| reflexivity].
    cbn [option_map]. now rewrite validated_idempotent. }
  split; [| split].
  - rewrite (IsValid_result w1), Hcfg, Hval. reflexivity.
  - destruct (configError (crypt w)) as [e |] eqn:He.
    + rewrite (Generate_config_error w v e He).
      rewrite (Generate_config_error w1 v e) by congruence.
      now rewrite Hval.
    + apply configError_None in He as (c & ser & k & Hc & Hser & Hk).
      destruct w as [x t u]. cbn [crypt] in Hc. subst x.
      unfold w1. cbn [crypt target unserialized option_map].
      unfold validated. rewrite Hser.
      rewrite (Generate_steps c t u ser k v Hser Hk).
      rewrite (Generate_steps (defaulted c) t u ser k v)
        by (now rewrite ?Serializer_defaulted, ?Secret_defaulted).
      now rewrite hasherOf_defaulted, defaulted_idempotent.
  - destruct (configError (crypt w)) as [e |] eqn:He.
    + rewrite (Verify_config_error w msg e He).
      rewrite (Verify_config_error w1 msg e) by congruence.
      now rewrite Hval.
    + apply configError_None in He as (c & ser & k & Hc & Hser & Hk).
      destruct w as [x t u]. cbn [crypt] in Hc. subst x.
      unfold w1. cbn [crypt target unserialized option_map].
      unfold validated. rewrite Hser.
      rewrite (Verify_steps c t u ser k msg Hser Hk).
      rewrite (Verify_steps (defaulted c) t u ser k msg)
        by (now rewrite ?Serializer_defaulted, ?Secret_defaulted).
      now rewrite hasherOf_defaulted, defaulted_idempotent.
Qed.

(** X8. When [IsValid] answers false, its error is the error [Generate] and
    [Verify] return, before [Generate] serializes anything and before
    [Verify] looks at the message; the world they leave is the one [IsValid]
    leaves, with the target and the [Unserialize] invocations as they
    were. *)
Theorem validation_error_is_shared (V : Type) (w : world V) (e : error)
    (v : V) (msg : string) :
  fst (IsValid w) = Returns (false, Some e) ->
  Generate v w = (Returns ("", Some e), snd (IsValid w))
  /\ Verify msg w = (Returns (Some e), snd (IsValid w))
  /\ target (snd (IsValid w)) = target w
  /\ unserialized (snd (IsValid w)) = unserialized w.
Proof.
  rewrite IsValid_result. cbn [fst snd target unserialized].
  destruct (configError (crypt w)) as [e0 |] eqn:He; [| discriminate].
  intros H. injection H as <-.
  rewrite (Generate_config_error w v e0 He), (Verify_config_error w msg e0 He).
  repeat split.
Qed.

Lemma validation_error_is_shared_witness :
  let w := {| crypt := Some (noSecretVerifier RawSerializer); target := "";
              unserialized := [] |} in
  Generate "hello" w
  = (Returns ("", Some (errors_New "Secret not set")), snd (IsValid w))
  /\ Verify "aGVsbG8=--00" w
     = (Returns (Some (errors_New "Secret not set")), snd (IsValid w)).
Proof.
  destruct (validation_error_is_shared string
              {| crypt := Some (noSecretVerifier RawSerializer); target := "";
                 unserialized := [] |}
              (errors_New "Secret not set") "hello" "aGVsbG8=--00" eq_refl)
    as (H1 & H2 & _).
  split; assumption.
Defined.

(** ** Signed strings and tampering *)

Lemma length_append (s t : string) :
  String.length (s ++ t) = (String.length s + String.length t)%nat.
Proof.
  induction s as [| c s IH]; [reflexivity |]. cbn. now rewrite IH.
Qed.

(** X9. The string [Generate] returns holds the separator once: it splits
    into exactly two parts, the encoded data and the digest.  The digest is
    in lowercase hexadecimal, two characters per byte of the HMAC; with the
    default Hasher the string is 42 characters longer than the encoded
    data. *)
Theorem Generate_output_shape (V : Type) (c : MessageVerifier V)
    (ser : MsgSerializer V) (k : list byte) (v : V) (data : string)
    (t : V) (u : list string) :
  Serializer c = Some ser -> Secret c = Some k ->
  Serialize ser v = (data, None) ->
  exists encoded digest,
    fst (Generate v {| crypt := Some c; target := t; unserialized := u |})
    = Returns ((encoded ++ "--" ++ digest)%string, None)
    /\ strings.Split_dashes (encoded ++ "--" ++ digest) = [encoded; digest]
    /\ allChars isLowerHex digest = true
    /\ String.length digest
       = (2 * List.length
                (hmac.mac (hasherOf c) k (bytes_of_string encoded)))%nat
    /\ (Hasher c = None ->
        String.length (encoded ++ "--" ++ digest)
        = (4 * ((String.length data + 2) / 3) + 42)%nat).
Proof.
  intros Hser Hk Hdata.
  exists (base64.EncodeToString (bytes_of_string data)).
  exists (digestOf (hasherOf c) k
            (base64.EncodeToString (bytes_of_string data))).
  split; [| split; [| split; [| split]]].
  - rewrite (Generate_steps c t u ser k v Hser Hk), Hdata. reflexivity.
  - apply Split_generated.
  - apply hex_isLowerHex.
  - apply digestOf_length.
  - intros Hh. rewrite !length_append, digestOf_length.
    unfold hasherOf. rewrite Hh, hmac_sha1_length.
    rewrite EncodeToString_length, length_bytes_of_string. cbn. lia.
Qed.

Lemma Generate_output_shape_witness :
  exists encoded digest,
    fst (Generate "hello" (sampleWorld QuotedSerializer))
    = Returns ((encoded ++ "--" ++ digest)%string, None)
    /\ String.length (encoded ++ "--" ++ digest) = 54%nat.
Proof.
  destruct (Generate_output_shape string (sampleVerifier QuotedSerializer)
              QuotedSerializer sampleSecret "hello" (quote ++ "hello" ++ quote)
              "" [] eq_refl eq_refl eq_refl)
    as (encoded & digest & Hg & _ & _ & _ & Hlen).
  exists encoded, digest. split; [exact Hg |]. exact (Hlen eq_refl).
Defined.

(** X10. Under one Secret and one Hasher, two values whose signed strings
    are equal have equal serialized data: the signed string determines the
    data that were signed. *)
Theorem Generate_injective (V : Type) (c : MessageVerifier V)
    (ser : MsgSerializer V) (k : list byte) (v1 v2 : V) (d1 d2 : string)
    (t1 t2 : V) (u1 u2 : list string) :
  Serializer c = Some ser -> Secret c = Some k ->
  Serialize ser v1 = (d1, None) -> Serialize ser v2 = (d2, None) ->
  fst (Generate v1 {| crypt := Some c; target := t1; unserialized := u1 |})
  = fst (Generate v2 {| crypt := Some c; target := t2; unserialized := u2 |}) ->
  d1 = d2.
Proof.
  intros Hser Hk H1 H2.
  rewrite (Generate_steps c t1 u1 ser k v1 Hser Hk), H1.
  rewrite (Generate_steps c t2 u2 ser k v2 Hser Hk), H2.
  cbn [fst]. cbv zeta. intros H. injection H as H.
  apply signed_cancel in H as [He _]; try apply digestOf_no_dash.
  apply (f_equal base64.DecodeString_strict) in He.
  rewrite !DecodeString_EncodeToString in He. injection He as He.
  now apply bytes_of_string_inj.
Qed.

Lemma Generate_injective_witness :
  (quote ++ "hello" ++ quote)%string = (quote ++ "hello" ++ quote)%string.
Proof.
  exact (Generate_injective string (sampleVerifier QuotedSerializer)
           QuotedSerializer sampleSecret "hello" "hello" _ _ "" "old" [] ["x"]
           eq_refl eq_refl eq_refl eq_refl eq_refl).
Defined.

Lemma SplitFrom_single (d x : string) :
  strings.SplitFrom "" d = [x] -> x = d.
Proof.
  intros H. pose proof (SplitFrom_join (String.length d) d "" (le_n _)) as Hj.
  rewrite H in Hj. exact Hj.
Qed.

(** X11. Tampering with a signed string is detected.  With the digest half
    replaced by any other text, or with the data half replaced by any text
    whose digest under the Secret is not the digest half, [Verify] returns an
    InvalidSignature error, and the target and the [Unserialize] invocations
    are as before the call. *)
Theorem tamper_detection (V : Type) (c : MessageVerifier V)
    (ser : MsgSerializer V) (k : list byte) (v : V) (data : string)
    (t : V) (u : list string) :
  Serializer c = Some ser -> Secret c = Some k ->
  Serialize ser v = (data, None) ->
  let encoded := base64.EncodeToString (bytes_of_string data) in
  let digest := digestOf (hasherOf c) k encoded in
  let w := {| crypt := Some c; target := t; unserialized := u |} in
  let w' := {| crypt := Some (defaulted c); target := t; unserialized := u |} in
  fst (Generate v w) = Returns ((encoded ++ "--" ++ digest)%string, None)
  /\ (forall d', d' <> digest ->
      exists e, Verify (encoded ++ "--" ++ d') w = (Returns (Some e), w')
                /\ InvalidSignature e = true)
  /\ (forall x, digestOf (hasherOf c) k x <> digest ->
      exists e, Verify (x ++ "--" ++ digest) w = (Returns (Some e), w')
                /\ InvalidSignature e = true).
Proof.
  intros Hser Hk Hdata encoded digest w w'. split; [| split].
  - unfold w. rewrite (Generate_steps c t u ser k v Hser Hk), Hdata.
    reflexivity.
  - intros d' Hd'.
    destruct (Verify_rejects_or_signed c t u ser k (encoded ++ "--" ++ d')
                Hser Hk) as [H | (a & Hsplit & _)]; [exact H |].
    exfalso. unfold strings.Split_dashes in Hsplit.
    rewrite SplitFrom_separator in Hsplit by apply EncodeToString_no_dash.
    cbn [String.append] in Hsplit. injection Hsplit as <- Hrest.
    apply SplitFrom_single in Hrest. apply Hd'. now rewrite <- Hrest.
  - intros x Hx.
    destruct (Verify_rejects_or_signed c t u ser k (x ++ "--" ++ digest)
                Hser Hk) as [H | (a & _ & Hmsg)]; [exact H |].
    exfalso. apply signed_cancel in Hmsg as [<- Hd];
      try apply digestOf_no_dash.
    apply Hx. now rewrite <- Hd.
Qed.

Lemma tamper_detection_witness :
  exists e,
    Verify "aGVsbG8=--9323e3d308a566952d5cbd1e3eacf11e07f4c640"
      (sampleWorld RawSerializer)
    = (Returns (Some e),
       {| crypt := Some (defaulted (sampleVerifier RawSerializer));
          target := ""; unserialized := [] |})
    /\ InvalidSignature e = true.
Proof.
  destruct (tamper_detection string (sampleVerifier RawSerializer)
              RawSerializer sampleSecret "hello" "hello" "" []
              eq_refl eq_refl eq_refl) as (_ & H & _).
  apply (H "9323e3d308a566952d5cbd1e3eacf11e07f4c640").
  vm_compute. discriminate.
Defined.

(** ** Digests *)

Lemma DigestFor_configured_hash_witness :
  DigestFor "hello"
    {| crypt := Some (defaulted (sampleVerifier RawSerializer));
       target := ""; unserialized := [] |}
  = (Returns (digestOf sha1.New sampleSecret "hello"),
     {| crypt := Some (defaulted (sampleVerifier RawSerializer));
        target := ""; unserialized := [] |})
  /\ String.length (digestOf sha1.New sampleSecret "hello") = 40%nat.
Proof.
  destruct (DigestFor_configured_hash string
              (defaulted (sampleVerifier RawSerializer)) "" []
              sampleSecret sha1.New "hello" eq_refl eq_refl)
    as (H1 & _ & _ & H4 & _).
  split; [exact H1 | exact (H4 eq_refl)].
Defined.

Lemma DigestFor_of_crypt (V : Type) (w : world V) (c : MessageVerifier V)
    (data : string) :
  crypt w = Some c ->
  fst (DigestFor data w)
  = match Secret c, Hasher c with
    | None, _ => Returns sentinel
    | Some k, Some h => Returns (digestOf h k data)
    | Some _, None => Panics
    end.
Proof.
  destruct w as [x t u]. cbn [crypt]. intros ->.
  now rewrite DigestFor_cases.
Qed.

Lemma DigestFor_defaulted (V : Type) (w : world V) (c : MessageVerifier V)
    (data : string) :
  crypt w = Some (defaulted c) ->
  fst (DigestFor data w)
  = Returns match Secret c with
            | None => sentinel
            | Some k => digestOf (hasherOf c) k data
            end.
Proof.
  intros Hc. rewrite (DigestFor_of_crypt V w (defaulted c) data Hc).
  rewrite Secret_defaulted, Hasher_defaulted.
  destruct (Secret c); reflexivity.
Qed.

(** X13. On a struct with a Serializer, [DigestFor] returns after any of
    [IsValid], [Generate] and [Verify] was called, whatever that call
    returned: the sentinel if the Secret is nil, else the digest under the
    Hasher of the struct or, if it had none, under SHA-1.  The call that
    panics on a fresh struct without Hasher does not panic after them. *)
Theorem DigestFor_after_validation (V : Type) (c : MessageVerifier V)
    (ser : MsgSerializer V) (t : V) (u : list string) (v : V)
    (msg data : string) :
  Serializer c = Some ser ->
  let w := {| crypt := Some c; target := t; unserialized := u |} in
  let expected := match Secret c with
                  | None => sentinel
                  | Some k => digestOf (hasherOf c) k data
                  end in
  fst (DigestFor data (snd (IsValid w))) = Returns expected
  /\ fst (DigestFor data (snd (Generate v w))) = Returns expected
  /\ fst (DigestFor data (snd (Verify msg w))) = Returns expected.
Proof.
  intros Hser w expected.
  assert (Hv : validated c = defaulted c)
    by (unfold validated; now rewrite Hser).
  split; [| split]; apply DigestFor_defaulted.
  - unfold w. rewrite IsValid_result. cbn [snd crypt option_map]. now rewrite Hv.
  - rewrite Generate_crypt. unfold w. cbn [crypt option_map]. now rewrite Hv.
  - rewrite Verify_crypt. unfold w. cbn [crypt option_map]. now rewrite Hv.
Qed.

Lemma DigestFor_after_validation_witness :
  let w := {| crypt := Some (sampleVerifier RawSerializer); target := "";
              unserialized := [] |} in
  fst (DigestFor "hello" w) = Panics
  /\ fst (DigestFor "hello" (snd (Verify "" w)))
     = Returns (digestOf (hasherOf (sampleVerifier RawSerializer))
                  sampleSecret "hello").
Proof.
  cbv zeta.
  destruct (DigestFor_after_validation string (sampleVerifier RawSerializer)
              RawSerializer "" [] "hello" "" "hello" eq_refl)
    as (_ & _ & H).
  split; [reflexivity |]. rewrite H. reflexivity.
Defined.

(** ** The invocations of [Unserialize] *)

(** X14. [Verify] invokes [Unserialize] at most twice.  It invokes it not at
    all when it rejects the message, with a configuration error or an
    InvalidSignature error.  Otherwise the message is a text, the separator
    and the digest of the text, and [Verify] invokes [Unserialize] first on
    the decoded text between double quotes: if that invocation returns nil it
    is the only one and [Verify] returns nil; only if it returns an error is
    there a second invocation, on the decoded text without the quotes, whose
    result decides what [Verify] returns. *)
Theorem Verify_unserialize_calls (V : Type) (w : world V) (msg : string) :
  let r := fst (Verify msg w) in
  let w' := snd (Verify msg w) in
  ((unserialized w' = unserialized w /\ target w' = target w
    /\ exists e, r = Returns (Some e)
                 /\ (isConfigError e = true \/ InvalidSignature e = true))
   \/ (exists c ser k data,
         crypt w = Some c /\ Serializer c = Some ser /\ Secret c = Some k
         /\ msg = (data ++ "--" ++ digestOf (hasherOf c) k data)%string
         /\ let d := string_of_bytes (fst (base64.DecodeString_strict data)) in
            let q := (quote ++ d ++ quote)%string in
            (Unserialize ser q (target w) = (target w', None)
             /\ unserialized w' = unserialized w ++ [q]
             /\ r = Returns None)
            \/ (exists t1 e1,
                  Unserialize ser q (target w) = (t1, Some e1)
                  /\ unserialized w' = unserialized w ++ [q; d]
                  /\ ((Unserialize ser d t1 = (target w', None)
                       /\ r = Returns None)
                      \/ (exists e2,
                            Unserialize ser d t1 = (target w', Some e2)
                            /\ r = Returns (Some (wrapError
                                 ("failed to unserialize both quoted and raw data: "
                                    ++ Error e2)%string e2)))))))
  /\ (forall e, r = Returns (Some e) ->
      isConfigError e = true \/ InvalidSignature e = true ->
      unserialized w' = unserialized w /\ target w' = target w).
Proof.
  cbv zeta.
  destruct (configError (crypt w)) as [e |] eqn:He.
  { rewrite (Verify_config_error w msg e He). cbn [fst snd target unserialized].
    split; [| intros; split; reflexivity].
    left. do 2 (split; [reflexivity |]). exists e. split; [reflexivity |].
    left. apply (configError_classes V _ e He). }
  apply configError_None in He as (c & ser & k & Hc & Hser & Hk).
  destruct w as [x t u]. cbn [crypt] in Hc. subst x.
  rewrite (Verify_steps c t u ser k msg Hser Hk). cbv zeta.
  cbn [unserialized target crypt].
  destruct (String.eqb msg "").
  { cbn [fst snd target unserialized].
    split; [| intros; split; reflexivity].
    left. do 2 (split; [reflexivity |]). eexists. split; [reflexivity |].
    right. reflexivity. }
  destruct (strings.Split_dashes msg) as [| a [| b [| x l]]] eqn:Hs;
    try (cbn [fst snd target unserialized];
         split; [| intros; split; reflexivity];
         left; do 2 (split; [reflexivity |]); eexists;
         split; [reflexivity |]; right; reflexivity).
  destruct (String.eqb_spec b (digestOf (hasherOf c) k a)) as [Hb | Hb].
  2: { cbn [fst snd target unserialized].
       split; [| intros; split; reflexivity].
       left. do 2 (split; [reflexivity |]). eexists. split; [reflexivity |].
       right. reflexivity. }
  assert (Hmsg : msg = (a ++ "--" ++ digestOf (hasherOf c) k a)%string)
    by (subst b; now apply Split_two_join).
  destruct (Unserialize ser _ t) as [t1 [e1 |]] eqn:H1.
  - destruct (Unserialize ser _ t1) as [t2 [e2 |]] eqn:H2;
      cbn [fst snd target unserialized].
    + split.
      * right. exists c, ser, k, a. do 4 (split; [auto |]).
        right. exists t1, e1. split; [exact H1 |]. split; [reflexivity |].
        right. exists e2. split; [exact H2 | reflexivity].
      * intros e H [Hcfg | Hinv]; injection H as <-.
        -- discriminate Hcfg.
        -- discriminate Hinv.
    + split; [| intros e H; discriminate H].
      right. exists c, ser, k, a. do 4 (split; [auto |]).
      right. exists t1, e1. split; [exact H1 |]. split; [reflexivity |].
      left. split; [exact H2 | reflexivity].
  - cbn [fst snd target unserialized].
    split; [| intros e H; discriminate H].
    right. exists c, ser, k, a. do 4 (split; [auto |]).
    left. split; [exact H1 |]. split; reflexivity.
Qed.

(** ** The default Hasher *)

Lemma configError_defaulted (V : Type) (c : MessageVerifier V) :
  configError (Some (defaulted c)) = configError (Some c).
Proof.
  cbn [configError]. now rewrite Serializer_defaulted, Secret_defaulted.
Qed.

(** X15. For [IsValid], [Generate] and [Verify], a struct whose Hasher is
    nil is a struct whose Hasher is [sha1.New]: they return the same, and
    leave the same target and the same [Unserialize] invocations. *)
Theorem nil_Hasher_means_sha1 (V : Type) (c : MessageVerifier V) (t : V)
    (u : list string) (v : V) (msg : string) :
  Hasher c = None ->
  let c' := {| Secret := Secret c; Hasher := Some sha1.New;
               Serializer := Serializer c |} in
  let w := {| crypt := Some c; target := t; unserialized := u |} in
  let w' := {| crypt := Some c'; target := t; unserialized := u |} in
  fst (IsValid w) = fst (IsValid w')
  /\ fst (Generate v w) = fst (Generate v w')
  /\ fst (Verify msg w) = fst (Verify msg w')
  /\ target (snd (Verify msg w)) = target (snd (Verify msg w'))
  /\ unserialized (snd (Verify msg w)) = unserialized (snd (Verify msg w')).
Proof.
  intros Hh c' w w'.
  assert (Hc' : c' = defaulted c) by (unfold defaulted; now rewrite Hh).
  unfold w, w'. rewrite Hc'.
  pose proof (configError_defaulted V c) as Hcfg.
  split.
  { rewrite !IsValid_result. cbn [fst crypt]. now rewrite Hcfg. }
  destruct (configError (Some c)) as [e |] eqn:He.
  - rewrite (Generate_config_error
               {| crypt := Some c; target := t; unserialized := u |} v e He).
    rewrite (Verify_config_error
               {| crypt := Some c; target := t; unserialized := u |} msg e He).
    rewrite (Generate_config_error
               {| crypt := Some (defaulted c); target := t;
                  unserialized := u |} v e Hcfg).
    rewrite (Verify_config_error
               {| crypt := Some (defaulted c); target := t;
                  unserialized := u |} msg e Hcfg).
    repeat split.
  - assert (Hx := He).
    apply (configError_None
             {| crypt := Some c; target := t; unserialized := u |}) in Hx
      as (c0 & ser & k & Hc0 & Hser & Hk).
    cbn [crypt] in Hc0. injection Hc0 as <-.
    rewrite (Generate_steps c t u ser k v Hser Hk).
    rewrite (Verify_steps c t u ser k msg Hser Hk).
    rewrite (Generate_steps (defaulted c) t u ser k v)
      by (now rewrite ?Serializer_defaulted, ?Secret_defaulted).
    rewrite (Verify_steps (defaulted c) t u ser k msg)
      by (now rewrite ?Serializer_defaulted, ?Secret_defaulted).
    rewrite hasherOf_defaulted, defaulted_idempotent. repeat split.
Qed.

Lemma nil_Hasher_means_sha1_witness :
  fst (Generate "hello" (sampleWorld RawSerializer))
  = fst (Generate "hello"
           {| crypt := Some {| Secret := Some sampleSecret;
                               Hasher := Some sha1.New;
                               Serializer := Some RawSerializer |};
              target := ""; unserialized := [] |}).
Proof.
  destruct (nil_Hasher_means_sha1 string (sampleVerifier RawSerializer) "" []
              "hello" "" eq_refl) as (_ & H & _).
  exact H.
Defined.
